(** * Retry engine and file-system resource locker of the Community Solid Server

    A shallow embedding of the retry engine of LockUtils
    ([setJitterTimeout], [retryFunctionUntil], [toRetryOnError],
    [toRetryOnBoolean]) and of the FileSystemResourceLocker ([stopOnError],
    [retryUntilError], [acquire], [release], [finalize]). Both are found in
    src/src/init/setup/SetupHandler.ts: the locker on lines 105-250, the
    engine on lines 251-352. The setup handler of the same file (lines
    37-104) and the cluster manager (src/unnamed/part_000) are embedded as
    well.

    Conventions of the embedding:
    - a JavaScript value is a [JsValue]; numbers are the integers the code
      handles (milliseconds, counts); the result of [Math.random] is a
      rational, and its product with the jitter is rounded to the nearest
      double, ties to even, as IEEE 754 multiplication does (overflow and
      subnormal numbers, out of reach of a jitter in milliseconds, are left
      out);
    - a promise is the state transformer that settles it: [Async S A] maps the
      state of the outside world to a [Settled] result and the next state;
    - the retry loop runs on fuel (it does not terminate when [retryCount] is
      [-1] and every attempt asks for a retry); [None] means the fuel ran out;
    - the engine's world records what can be observed of a run: each
      invocation of the attempt and each timer handed to [setTimeout];
    - logger calls are left out. *)

From Stdlib Require Import ZArith QArith Qround Qpower String List Lia Lqa DecimalString.
From stdpp Require Import base option list strings gmap.

Set Warnings "-register-all".
Local Open Scope string_scope.
Local Open Scope list_scope.
Local Open Scope Z_scope.

(** ** JavaScript values *)

Module Js.

Inductive JsValue : Type :=
| JUndefined
| JNull
| JBool (b : bool)
| JNum (n : Z)
| JStr (s : string)
| JObj (props : list (string * JsValue)).

(** [if (v)]: the truthiness test of a condition. *)
Definition truthy (v : JsValue) : bool :=
  match v with
  | JUndefined | JNull => false
  | JBool b => b
  | JNum n => negb (n =? 0)
  | JStr s => negb (String.eqb s "")
  | JObj _ => true
  end.

Fixpoint assoc (key : string) (props : list (string * JsValue)) : option JsValue :=
  match props with
  | [] => None
  | (k, v) :: rest => if String.eqb k key then Some v else assoc key rest
  end.

(** [key in v], for a [v] that is an object. *)
Definition hasProp (key : string) (v : JsValue) : bool :=
  match v with
  | JObj props => bool_decide (is_Some (assoc key props))
  | _ => false
  end.

(** [v.key]; [undefined] when the property is absent. *)
Definition getProp (key : string) (v : JsValue) : JsValue :=
  match v with
  | JObj props => default JUndefined (assoc key props)
  | _ => JUndefined
  end.

(** [v === s] for a string literal [s]. *)
Definition strictEqStr (v : JsValue) (s : string) : bool :=
  match v with
  | JStr s' => String.eqb s' s
  | _ => false
  end.

(** [v === b] for a boolean [b]. *)
Definition strictEqBool (v : JsValue) (b : bool) : bool :=
  match v with
  | JBool b' => Bool.eqb b' b
  | _ => false
  end.

(** [typeof v === 'object' && v !== null] *)
Definition isNonNullObject (v : JsValue) : bool :=
  match v with
  | JObj _ => true
  | _ => false
  end.

(** The template-literal rendering of an integer. *)
Definition intToString (n : Z) : string :=
  NilZero.string_of_int (Z.to_int n).

End Js.
Export Js.

(** ** Promises as state transformers *)

Inductive Settled (A : Type) : Type :=
| Resolved (a : A)
| Rejected (e : JsValue).
Arguments Resolved {A} a.
Arguments Rejected {A} e.

Definition Async (S A : Type) : Type := S -> Settled A * S.

(** Modelled from the spec: the class [InternalServerError]
    (util/errors/InternalServerError) is not under src/; the spec calls it a
    wrapped internal error. It is an error object (status 500) holding the
    message it was constructed with. *)
Definition InternalServerError (message : string) : JsValue :=
  JObj [("name", JStr "InternalServerError");
        ("statusCode", JNum 500);
        ("message", JStr message)].

(** ** LockUtils *)

Module LockUtils.

Inductive Event : Type :=
| EvAttempt
| EvTimeout (ms : Z).

(** The world the engine runs in: the state [S] the wrapped primitive acts
    on, the values [Math.random] returns (the [n]-th call returns
    [random n]), the number of draws made so far, and the trace of the run,
    oldest event first. *)
Record World (S : Type) : Type := mkWorld {
  prim : S;
  random : nat -> Q;
  drawn : nat;
  trace : list Event
}.
Arguments mkWorld {S}.
Arguments prim {S}.
Arguments random {S}.
Arguments drawn {S}.
Arguments trace {S}.

Definition mathRandom {S} (w : World S) : Q * World S :=
  (random w (drawn w), mkWorld (prim w) (random w) (Datatypes.S (drawn w)) (trace w)).

Definition setTimeout {S} (ms : Z) (w : World S) : World S :=
  mkWorld (prim w) (random w) (drawn w) (trace w ++ [EvTimeout ms]).

Definition logAttempt {S} (w : World S) : World S :=
  mkWorld (prim w) (random w) (drawn w) (trace w ++ [EvAttempt]).

Definition withPrim {S} (w : World S) (s : S) : World S :=
  mkWorld s (random w) (drawn w) (trace w).

(** *** Double-precision rounding

    JavaScript numbers are IEEE 754 doubles: the product
    [Math.random() * jitter] is the exact product rounded to the nearest
    double, ties to even. A positive double is [m * 2^e] with
    [2^52 <= m < 2^53]; exponents are not bounded here. *)

Definition pow2 (e : Z) : Q := (2 # 1) ^ e.

(** The [b] with [2^b <= x < 2^(b+1)], for [x > 0]. *)
Definition binade (x : Q) : Z :=
  let l := Z.log2 (Qnum x) - Z.log2 (Zpos (Qden x)) in
  if Qle_bool (pow2 l) x then l else l - 1.

(** The nearest integer, a tie going to the even one. *)
Definition roundHalfEven (s : Q) : Z :=
  let q := Qfloor s in
  match (s - inject_Z q ?= 1 # 2)%Q with
  | Lt => q
  | Gt => q + 1
  | Eq => if Z.even q then q else q + 1
  end.

Definition roundPositive (x : Q) : Q :=
  let e := binade x - 52 in
  (inject_Z (roundHalfEven (x * pow2 (- e))) * pow2 e)%Q.

(** The double nearest to [x]. *)
Definition roundDouble (x : Q) : Q :=
  match Qnum x with
  | Z0 => 0%Q
  | Zpos _ => roundPositive x
  | Zneg _ => (- roundPositive (- x))%Q
  end.

(** [x] is a double: rounding leaves it as it is. *)
Definition isDouble (x : Q) : bool := Qeq_bool (roundDouble x) x.

(** [jitter > 0 ? Math.max(1, Math.floor(Math.random() * jitter)) : 0],
    for the draw [r] that [Math.random()] returns; the product is the
    double that the multiplication yields. *)
Definition jitterOf (r : Q) (jitter : Z) : Z :=
  if 0 <? jitter then Z.max 1 (Qfloor (roundDouble (r * inject_Z jitter))) else 0.

(** [calcTime] given the draw: [Math.max(0, delay + jitter)]. *)
Definition calcTimeWith (r : Q) (delay jitter : Z) : Z :=
  Z.max 0 (delay + jitterOf r jitter).

(** [calcTime()]: [Math.random] is called only when [jitter > 0]. *)
Definition calcTime {S} (delay jitter : Z) (w : World S) : Z * World S :=
  if 0 <? jitter then
    let (r, w') := mathRandom w in (calcTimeWith r delay jitter, w')
  else (Z.max 0 (delay + 0), w).

(** [setJitterTimeout(delay, jitter = 0)]: the promise resolves when the
    timer fires; the timer is recorded in the trace. *)
Definition setJitterTimeout {S} (delay : Z) (jitter : option Z) (w : World S) : World S :=
  let (ms, w') := calcTime delay (default 0 jitter) w in
  setTimeout ms w'.

(** [AttemptSettings], all fields optional. *)
Record AttemptSettings : Type := mkAttemptSettings {
  retryCount : option Z;
  retryDelay : option Z;
  retryJitter : option Z
}.

(** [Required<AttemptSettings>] *)
Record RequiredAttemptSettings : Type := mkRequired {
  reqRetryCount : Z;
  reqRetryDelay : Z;
  reqRetryJitter : Z
}.

(** [LockRequestState<T>]; an absent optional field reads [undefined]. *)
Record LockRequestState : Type := mkState {
  shouldRetry : bool;
  response : JsValue;
  error : JsValue
}.

(** [maxTries]: a number or [Number.POSITIVE_INFINITY]. *)
Inductive Tries : Type :=
| Finite (n : Z)
| Infinity.

Definition maxTriesOf (retryCount : Z) : Tries :=
  if retryCount =? -1 then Infinity else Finite (retryCount + 1).

(** [tries <= maxTries] *)
Definition triesLe (tries : Z) (m : Tries) : bool :=
  match m with
  | Finite n => tries <=? n
  | Infinity => true
  end.

(** [tries > maxTries] *)
Definition triesGt (tries : Z) (m : Tries) : bool :=
  match m with
  | Finite n => n <? tries
  | Infinity => false
  end.

Definition triesToString (m : Tries) : string :=
  match m with
  | Finite n => intToString n
  | Infinity => "Infinity"
  end.

Definition budgetMessage (m : Tries) : string :=
  "The operation did not succeed after the set maximum of tries (" +:+
  triesToString m +:+ ").".

Section Engine.
Context {S : Type}.

(** [await fn()]: the attempt acts on the primitive's state; the
    invocation is recorded. *)
Definition invoke (fn : Async S LockRequestState) (w : World S)
  : Settled LockRequestState * World S :=
  let (r, s') := fn (prim w) in (r, withPrim (logAttempt w) s').

(** The [while] loop of [retryFunctionUntil] followed by the code after
    it, started with the loop variables [state] and [tries]. One unit of
    fuel is spent each time the body is entered. *)
Fixpoint retryLoop (fuel : nat) (fn : Async S LockRequestState)
    (retryDelay retryJitter : Z) (maxTries : Tries)
    (state : LockRequestState) (tries : Z) (w : World S)
  : option (Settled JsValue * World S) :=
  if shouldRetry state && triesLe tries maxTries then
    match fuel with
    | O => None
    | Datatypes.S fuel' =>
      match invoke fn w with
      | (Rejected e, w1) => Some (Rejected e, w1)
      | (Resolved st, w1) =>
        if shouldRetry st then
          let w2 := setJitterTimeout retryDelay (Some retryJitter) w1 in
          retryLoop fuel' fn retryDelay retryJitter maxTries st (tries + 1) w2
        else if truthy (error st) then Some (Rejected (error st), w1)
        else if truthy (response st) then Some (Resolved (response st), w1)
        else retryLoop fuel' fn retryDelay retryJitter maxTries st tries w1
      end
    end
  else if triesGt tries maxTries then
    Some (Rejected (InternalServerError (budgetMessage maxTries)), w)
  else Some (Resolved JUndefined, w).

Definition retryFunctionUntil (fuel : nat) (fn : Async S LockRequestState)
    (settings : RequiredAttemptSettings) (w : World S)
  : option (Settled JsValue * World S) :=
  let maxTries := maxTriesOf (reqRetryCount settings) in
  retryLoop fuel fn (reqRetryDelay settings) (reqRetryJitter settings) maxTries
    (mkState true JUndefined JUndefined) 1 w.

(** [toRetryOnError(stopCondition, fn)] *)
Definition toRetryOnError (stopCondition : JsValue -> bool) (fn : Async S JsValue)
  : Async S LockRequestState :=
  fun s =>
    match fn s with
    | (Resolved response, s') => (Resolved (mkState false response JUndefined), s')
    | (Rejected err, s') =>
        (Resolved (mkState (negb (stopCondition err)) JUndefined err), s')
    end.

(** [toRetryOnBoolean(retryValue, fn)] *)
Definition toRetryOnBoolean (retryValue : bool) (fn : Async S JsValue)
  : Async S LockRequestState :=
  fun s =>
    match fn s with
    | (Resolved response, s') =>
        (Resolved (mkState (strictEqBool response retryValue) response JUndefined), s')
    | (Rejected err, s') => (Resolved (mkState false JUndefined err), s')
    end.
End Engine.

(** The number of times the attempt was invoked, and the timers set. *)
Definition isAttempt (ev : Event) : bool :=
  match ev with EvAttempt => true | EvTimeout _ => false end.

Definition attemptCount (t : list Event) : nat := length (filter (fun ev => isAttempt ev = true) t).

Definition timeoutCount (t : list Event) : nat := length (filter (fun ev => isAttempt ev = false) t).

End LockUtils.
Export LockUtils.


(** ** FileSystemResourceLocker *)

Module FileSystemResourceLocker.

(** [LockOptions] and [UnlockOptions] of the lock primitive, as far as the
    locker sets them ([retries] exists on [LockOptions] only). *)
Record Options : Type := mkOptions {
  realpath : bool;
  retries : option Z;
  lockfilePath : option string
}.

Definition defaultLockOptions : Options := mkOptions false (Some 0) None.

Definition defaultUnlockOptions : Options := mkOptions false None None.

Definition attemptDefaults : RequiredAttemptSettings := mkRequired (-1) 50 30.

Record ResourceIdentifier : Type := mkIdentifier { path : string }.

Record FileSystemResourceLockerArgs : Type := mkArgs {
  rootFilePath : option string;
  lockDirectory : option string;
  attemptSettingsArg : option AttemptSettings
}.

(** The fields of a locker instance. *)
Record Locker : Type := mkLocker {
  attemptSettings : RequiredAttemptSettings;
  lockFolder : string
}.

(** [{ ...attemptDefaults, ...attemptSettings }] *)
Definition spreadSettings (defaults : RequiredAttemptSettings)
    (given : option AttemptSettings) : RequiredAttemptSettings :=
  match given with
  | None => defaults
  | Some a =>
      mkRequired (default (reqRetryCount defaults) (retryCount a))
                 (default (reqRetryDelay defaults) (retryDelay a))
                 (default (reqRetryJitter defaults) (retryJitter a))
  end.

(** [isCodedError(err)] *)
Definition isCodedError (err : JsValue) : bool :=
  isNonNullObject err && hasProp "code" err.

(** [stopOnError]: stop retrying when this error occurs. *)
Definition stopOnError (err : JsValue) : bool :=
  isCodedError err && strictEqStr (getProp "code" err) "ENOTACQUIRED".

(** The code of a coded error, when it is a string. *)
Definition codeOf (err : JsValue) : option string :=
  match getProp "code" err with
  | JStr c => Some c
  | _ => None
  end.


(** Modelled from the spec: the spec has [unlock] reject with one code
    meaning not currently held; the primitive names it ENOTACQUIRED. *)
Definition meansNotHeld (err : JsValue) : bool :=
  bool_decide (codeOf err = Some "ENOTACQUIRED").

Section Locker.
(** What the locker imports and src/ does not hold: the primitive's [lock]
    and [unlock] (proper-lockfile) acting on a state [S], the hex digest of
    [createHash('md5')], [joinFilePath] (PathUtil) and [createErrorMessage]
    (ErrorUtil). *)
Context {S : Type}.
Variable lock : string -> Options -> Async S JsValue.
Variable unlock : string -> Options -> Async S JsValue.
Variable md5hex : string -> string.
Variable joinFilePath : string -> string -> string.
Variable createErrorMessage : JsValue -> string.

(** The constructor, without the creation of the directory
    ([ensureDirSync]). *)
Definition newLocker (args : FileSystemResourceLockerArgs) : Locker :=
  mkLocker (spreadSettings attemptDefaults (attemptSettingsArg args))
           (joinFilePath (default "./" (rootFilePath args))
                         (default "/.internal/locks" (lockDirectory args))).

Definition retryUntilError (fuel : nat) (self : Locker) (fn : Async S JsValue)
  : World S -> option (Settled JsValue * World S) :=
  retryFunctionUntil fuel (toRetryOnError stopOnError fn) (attemptSettings self).

Definition toLockfilePath (self : Locker) (identifier : ResourceIdentifier) : string :=
  joinFilePath (lockFolder self) (md5hex (path identifier)).

(** [{ ...defaults, lockfilePath }] *)
Definition generateOptions (self : Locker) (identifier : ResourceIdentifier)
    (defaults : Options) : Options :=
  mkOptions (realpath defaults) (retries defaults) (Some (toLockfilePath self identifier)).

Definition acquire (fuel : nat) (self : Locker) (identifier : ResourceIdentifier)
    (w : World S) : option (Settled JsValue * World S) :=
  let path := path identifier in
  let opt := generateOptions self identifier defaultLockOptions in
  match retryUntilError fuel self (lock path opt) w with
  | None => None
  | Some (Resolved _, w') => Some (Resolved JUndefined, w')
  | Some (Rejected err, w') =>
      Some (Rejected (InternalServerError
              ("Error trying to acquire lock for " +:+ path +:+ ". " +:+
               createErrorMessage err)), w')
  end.

Definition release (fuel : nat) (self : Locker) (identifier : ResourceIdentifier)
    (w : World S) : option (Settled JsValue * World S) :=
  let path := path identifier in
  let opt := generateOptions self identifier defaultUnlockOptions in
  match retryUntilError fuel self (unlock path opt) w with
  | None => None
  | Some (Resolved _, w') => Some (Resolved JUndefined, w')
  | Some (Rejected err, w') =>
      Some (Rejected (InternalServerError
              ("Error trying to release lock for " +:+ path +:+ ".  " +:+
               createErrorMessage err)), w')
  end.
End Locker.

(** *** The lock folder on disk

    The fs-extra calls of [finalize] ([pathExists], [readdir], [rmdir]) act
    on a file system that maps a path to a file or to a directory with the
    names it lists. [rmdir] is rmdir(2): it removes an empty directory and
    fails with ENOENT, ENOTDIR or ENOTEMPTY otherwise. Other processes do
    not interfere between two calls. *)

Inductive Node : Type :=
| NFile
| NDir (entries : list string).

Definition fsError (code : string) : JsValue := JObj [("code", JStr code)].

Definition pathExists (p : string) (fs : gmap string Node) : bool :=
  bool_decide (is_Some (fs !! p)).

Definition readdir (p : string) (fs : gmap string Node) : Settled (list string) :=
  match fs !! p with
  | None => Rejected (fsError "ENOENT")
  | Some NFile => Rejected (fsError "ENOTDIR")
  | Some (NDir entries) => Resolved entries
  end.

(** Directory [d] after the entry that names path [p] is gone. *)
Definition unlink (p d : string) (node : Node) : Node :=
  match node with
  | NFile => NFile
  | NDir entries => NDir (filter (fun n => d +:+ "/" +:+ n ≠ p) entries)
  end.

Definition rmdir (p : string) (fs : gmap string Node) : Settled unit * gmap string Node :=
  match fs !! p with
  | None => (Rejected (fsError "ENOENT"), fs)
  | Some NFile => (Rejected (fsError "ENOTDIR"), fs)
  | Some (NDir (_ :: _)) => (Rejected (fsError "ENOTEMPTY"), fs)
  | Some (NDir []) =>
      (Resolved tt, map_imap (fun d node => Some (unlink p d node)) (delete p fs))
  end.

(** [for (const dir of dirs) { await rmdir(`${lockFolder}/${dir}`); }] *)
Fixpoint rmdirEach (lockFolder : string) (dirs : list string) (fs : gmap string Node)
  : Settled unit * gmap string Node :=
  match dirs with
  | [] => (Resolved tt, fs)
  | dir :: rest =>
      match rmdir (lockFolder +:+ "/" +:+ dir) fs with
      | (Resolved _, fs') => rmdirEach lockFolder rest fs'
      | (Rejected e, fs') => (Rejected e, fs')
      end
  end.

Definition finalize (self : Locker) (fs : gmap string Node)
  : Settled unit * gmap string Node :=
  if pathExists (lockFolder self) fs then
    match readdir (lockFolder self) fs with
    | Rejected e => (Rejected e, fs)
    | Resolved dirs =>
        match rmdirEach (lockFolder self) dirs fs with
        | (Resolved _, fs') => rmdir (lockFolder self) fs'
        | (Rejected e, fs') => (Rejected e, fs')
        end
    end
  else (Resolved tt, fs).

End FileSystemResourceLocker.
Export FileSystemResourceLocker.


(** ** Concrete collaborators

    Instances of what the locker imports, used to run the model on
    concrete inputs. *)

Module Scenario.

(** An [Error] with a [code], as the lock primitive and the file system
    reject with. *)
Definition codedError (code message : string) : JsValue :=
  JObj [("name", JStr "Error"); ("code", JStr code); ("message", JStr message)].

Definition lockedError : JsValue :=
  codedError "ELOCKED" "Lock file is already being held".

Definition notAcquiredError : JsValue :=
  codedError "ENOTACQUIRED" "Lock is not acquired/owned by you".

Definition ioError : JsValue :=
  codedError "EIO" "i/o error".

(** A raw call that settles the same way every time. *)
Definition always (r : Settled JsValue) : Async unit JsValue :=
  fun s => (r, s).

(** A raw call that settles as the script says, one entry per call, and
    resolves with [undefined] once the script is used up. *)
Definition scripted : Async (list (Settled JsValue)) JsValue :=
  fun s =>
    match s with
    | [] => (Resolved JUndefined, [])
    | r :: rest => (r, rest)
    end.

(** A world in which [Math.random] always returns its least value. *)
Definition start {S} (s : S) : World S := mkWorld s (fun _ => 0%Q) 0 [].

(** The message of an error object. *)
Definition messageOf (err : JsValue) : string :=
  match getProp "message" err with
  | JStr m => m
  | _ => "Unknown error"
  end.

Definition joinWithSlash (a b : string) : string := a +:+ "/" +:+ b.

Definition sameName (p : string) : string := p.

Definition locker (retryCount : Z) : Locker :=
  newLocker joinWithSlash
    (mkArgs (Some "/data") (Some ".internal/locks")
            (Some (mkAttemptSettings (Some retryCount) None None))).

(** A lock folder with the two lock entries that the primitive left (it
    makes a lock by creating a directory). *)
Definition twoLocks : gmap string Node :=
  <["/data/.internal/locks" := NDir ["0a1b"; "2c3d"]]>
  (<["/data/.internal/locks/0a1b" := NDir []]>
  (<["/data/.internal/locks/2c3d" := NDir []]>
  (<["/data/alice.ttl" := NFile]> ∅))).

(** A lock folder in which a regular file sits after a lock entry. *)
Definition strayFile : gmap string Node :=
  <["/data/.internal/locks" := NDir ["0a1b"; "notes.txt"]]>
  (<["/data/.internal/locks/0a1b" := NDir []]>
  (<["/data/.internal/locks/notes.txt" := NFile]> ∅)).

(** A lock folder whose only entry is a directory that is not empty. *)
Definition fullEntry : gmap string Node :=
  <["/data/.internal/locks" := NDir ["0a1b"]]>
  (<["/data/.internal/locks/0a1b" := NDir ["pid"]]>
  (<["/data/.internal/locks/0a1b/pid" := NFile]> ∅)).

Definition alice : ResourceIdentifier := mkIdentifier "/alice/foo.ttl".

(** An attempt that succeeds with [v] at once. *)
Definition succeedsWith (v : JsValue) : Async unit LockRequestState :=
  fun s => (Resolved (mkState false v JUndefined), s).

Definition threeTries : RequiredAttemptSettings := mkRequired 2 50 30.


End Scenario.


(** ** Describing runs of the engine *)

Module Runs.

(** The three outcomes of an attempt, as the adapters write them into a
    [LockRequestState]. *)
Definition isSuccess (st : LockRequestState) (v : JsValue) : Prop :=
  st = mkState false v JUndefined.

Definition isTerminal (st : LockRequestState) (e : JsValue) : Prop :=
  st = mkState false JUndefined e.

Definition isRetryable (st : LockRequestState) : Prop :=
  shouldRetry st = true.

Section RunsOf.
Context {S : Type}.

(** The first [n] invocations of [fn], started in state [s], all ask for a
    retry. *)
Fixpoint allRetryable (fn : Async S LockRequestState) (n : nat) (s : S) : Prop :=
  match n with
  | O => True
  | Datatypes.S n' =>
      match fn s with
      | (Resolved st, s') => isRetryable st /\ allRetryable fn n' s'
      | (Rejected _, _) => False
      end
  end.

(** [fn] asks for a retry whenever it is invoked. *)
Definition alwaysRetryable (fn : Async S LockRequestState) : Prop :=
  forall s, exists st s', fn s = (Resolved st, s') /\ isRetryable st.

(** [fn] rejects with [e] whenever it is invoked. *)
Definition alwaysRejects (fn : Async S JsValue) (e : JsValue) : Prop :=
  forall s, exists s', fn s = (Rejected e, s').

(** The world after [n] rounds of the loop that each invoke [fn] and then
    sleep. *)
Fixpoint afterRetries (fn : Async S LockRequestState) (retryDelay retryJitter : Z)
    (n : nat) (w : World S) : World S :=
  match n with
  | O => w
  | Datatypes.S n' =>
      afterRetries fn retryDelay retryJitter n'
        (setJitterTimeout retryDelay (Some retryJitter) (snd (invoke fn w)))
  end.

(** [tries] attempts fit the budget of [retryCount]. *)
Definition withinBudget (retryCount : Z) (tries : nat) : Prop :=
  retryCount = -1 \/ Z.of_nat tries <= retryCount + 1.

(** The state that [n] invocations of [fn], one after the other, leave
    behind when started in state [s]. *)
Fixpoint stateAfter {A : Type} (fn : Async S A) (n : nat) (s : S) : S :=
  match n with
  | O => s
  | Datatypes.S n' => stateAfter fn n' (snd (fn s))
  end.
End RunsOf.

(** What [n] rounds that retry add to the trace: an attempt, then a timer
    of [max(0, delay + U)] for the next draw [rand next] of [Math.random],
    a draw being made only when the jitter is positive. *)
Fixpoint roundsTrace (rand : nat -> Q) (next : nat) (retryDelay retryJitter : Z) (n : nat)
  : list Event :=
  match n with
  | O => []
  | Datatypes.S n' =>
      EvAttempt :: EvTimeout (calcTimeWith (rand next) retryDelay retryJitter)
        :: roundsTrace rand (if 0 <? retryJitter then Datatypes.S next else next)
             retryDelay retryJitter n'
  end.

End Runs.
Export Runs.


(** ** Describing what a run leaves in the trace *)

Module RunFacts.



(** The error thrown after the loop when the budget is used up. *)
Definition budgetError (retryCount : Z) : JsValue :=
  InternalServerError (budgetMessage (maxTriesOf retryCount)).


(** The first [n] invocations of the raw call, started in state [s], all
    reject with an error that the stop predicate [p] does not match. *)
Fixpoint rejectsUnmatched {S} (p : JsValue -> bool) (call : Async S JsValue)
    (n : nat) (s : S) : Prop :=
  match n with
  | O => True
  | Datatypes.S n' =>
      match call s with
      | (Rejected e, s') => p e = false /\ rejectsUnmatched p call n' s'
      | (Resolved _, _) => False
      end
  end.

(** The first [n] invocations of the raw call, started in state [s], all
    resolve with the boolean [b]. *)
Fixpoint resolvesSentinel {S} (b : bool) (call : Async S JsValue)
    (n : nat) (s : S) : Prop :=
  match n with
  | O => True
  | Datatypes.S n' =>
      match call s with
      | (Resolved v, s') => v = JBool b /\ resolvesSentinel b call n' s'
      | (Rejected _, _) => False
      end
  end.

(** The state of the primitive after [n] invocations of the raw call. *)
Fixpoint primAfter {S} (call : Async S JsValue) (n : nat) (s : S) : S :=
  match n with
  | O => s
  | Datatypes.S n' => primAfter call n' (snd (call s))
  end.

End RunFacts.
Export RunFacts.


(** ** SetupHandler

    [handlePost], [initialize] and [register] of the setup handler
    (src/src/init/setup/SetupHandler.ts, lines 37-104). The handler's
    collaborators act on a state [S]. A parsed JSON array is not among the
    values modelled; logger calls are left out. *)

Module RegistrationManager.

(** The registration manager as far as the handler uses it:
    [validateInput] returns or throws, [register] is asynchronous. *)
Record RegistrationManager (S : Type) : Type := mkManager {
  validateInput : JsValue -> bool -> Settled JsValue;
  register : JsValue -> bool -> Async S JsValue
}.
Arguments mkManager {S}.
Arguments validateInput {S}.
Arguments register {S}.

End RegistrationManager.

Module SetupHandler.

(** An [HttpError]: the classes (util/errors) are not under src/; an error
    object holding the class name, the status code and the message. *)
Definition httpError (name : string) (statusCode : Z) (message : string) : JsValue :=
  JObj [("name", JStr name); ("statusCode", JNum statusCode); ("message", JStr message)].

Definition BadRequestHttpError (message : string) : JsValue :=
  httpError "BadRequestHttpError" 400 message.

Definition NotImplementedHttpError (message : string) : JsValue :=
  httpError "NotImplementedHttpError" 501 message.

(** The [TypeError] of reading a property of [null] or [undefined]. *)
Definition typeErrorReading (what key : string) : JsValue :=
  JObj [("name", JStr "TypeError");
        ("message", JStr ("Cannot read properties of " +:+ what +:+
                          " (reading '" +:+ key +:+ "')"))].

(** [v.key], which throws on [null] and [undefined]. *)
Definition readMember (key : string) (v : JsValue) : Settled JsValue :=
  match v with
  | JUndefined => Rejected (typeErrorReading "undefined" key)
  | JNull => Rejected (typeErrorReading "null" key)
  | _ => Resolved (getProp key v)
  end.

(** [target[key] = v]: an own property keeps its place, a new one comes
    last. *)
Fixpoint setProp (key : string) (v : JsValue) (props : list (string * JsValue))
  : list (string * JsValue) :=
  match props with
  | [] => [(key, v)]
  | (k, x) :: rest =>
      if String.eqb k key then (k, v) :: rest else (k, x) :: setProp key v rest
  end.

(** The own enumerable properties of a string: its characters by index. *)
Fixpoint stringEntries (i : nat) (s : string) : list (string * JsValue) :=
  match s with
  | EmptyString => []
  | String c rest =>
      (intToString (Z.of_nat i), JStr (String c EmptyString)) :: stringEntries (Datatypes.S i) rest
  end.

(** [Object.assign(target, source)] *)
Definition objectAssign (target : list (string * JsValue)) (source : JsValue)
  : list (string * JsValue) :=
  match source with
  | JObj props => fold_left (fun t kv => setProp (fst kv) (snd kv) t) props target
  | JStr s => fold_left (fun t kv => setProp (fst kv) (snd kv) t) (stringEntries 0 s) target
  | _ => target
  end.

Record Initializer (S : Type) : Type := mkInitializer {
  handleSafe : Async S JsValue
}.
Arguments mkInitializer {S}.
Arguments handleSafe {S}.

(** [KeyValueStorage<string, boolean>], of which the handler calls [get]. *)
Record KeyValueStorage (S : Type) : Type := mkStorage {
  get : string -> Async S JsValue
}.
Arguments mkStorage {S}.
Arguments get {S}.

Record SetupHandlerArgs (S : Type) : Type := mkHandler {
  registrationManager : option (RegistrationManager.RegistrationManager S);
  initializer : option (Initializer S);
  storage : KeyValueStorage S;
  rootPodInitializedStorageKey : string
}.
Arguments mkHandler {S}.
Arguments registrationManager {S}.
Arguments initializer {S}.
Arguments storage {S}.
Arguments rootPodInitializedStorageKey {S}.

(** [operation.body] *)
Record Body (Data : Type) : Type := mkBody {
  isEmpty : bool;
  data : Data
}.
Arguments mkBody {Data}.
Arguments isEmpty {Data}.
Arguments data {Data}.

(** [new BasicRepresentation(data, contentType)] *)
Record Representation : Type := mkRepresentation {
  representationData : string;
  contentType : string
}.

Definition APPLICATION_JSON : string := "application/json".

Section Handler.
(** What the handler imports and src/ does not hold: [readJsonStream]
    (StreamUtil) and the built-in [JSON.stringify]. *)
Context {S Data : Type}.
Variable readJsonStream : Data -> Async S JsValue.
Variable stringify : JsValue -> string.

Definition initialize (self : SetupHandlerArgs S) : Async S JsValue :=
  fun s =>
    match get (storage self) (rootPodInitializedStorageKey self) s with
    | (Rejected e, s1) => (Rejected e, s1)
    | (Resolved rootPodInitialized, s1) =>
        if truthy rootPodInitialized then
          (Rejected (BadRequestHttpError
             "Invalid request to initialize: the public root Pod has already been initialized."),
           s1)
        else
          match initializer self with
          | None =>
              (Rejected (NotImplementedHttpError
                 "This server is not configured with a setup initializer."), s1)
          | Some init =>
              match handleSafe init s1 with
              | (Rejected e, s2) => (Rejected e, s2)
              | (Resolved _, s2) => (Resolved JUndefined, s2)
              end
          end
    end.

Definition register (self : SetupHandlerArgs S) (json : JsValue) : Async S JsValue :=
  fun s =>
    match registrationManager self with
    | None =>
        (Rejected (NotImplementedHttpError
           "This server is not configured to support registration during setup."), s)
    | Some manager =>
        match RegistrationManager.validateInput manager json true with
        | Rejected e => (Rejected e, s)
        | Resolved validated => RegistrationManager.register manager validated true s
        end
    end.

Definition represent (output : list (string * JsValue)) : Representation :=
  mkRepresentation (stringify (JObj output)) APPLICATION_JSON.

Definition handlePost (self : SetupHandlerArgs S) (body : Body Data)
  : Async S Representation :=
  fun s =>
    match (if isEmpty body then (Resolved (JObj []), s) else readJsonStream (data body) s) with
    | (Rejected e, s1) => (Rejected e, s1)
    | (Resolved json, s1) =>
        let output := [("initialize", JBool false); ("registration", JBool false)] in
        match readMember "registration" json with
        | Rejected e => (Rejected e, s1)
        | Resolved registration =>
            if truthy registration then
              match register self json s1 with
              | (Rejected e, s2) => (Rejected e, s2)
              | (Resolved details, s2) =>
                  (Resolved (represent
                     (setProp "registration" (JBool true) (objectAssign output details))), s2)
              end
            else
              match readMember "initialize" json with
              | Rejected e => (Rejected e, s1)
              | Resolved init =>
                  if truthy init then
                    match initialize self s1 with
                    | (Rejected e, s2) => (Rejected e, s2)
                    | (Resolved _, s2) =>
                        (Resolved (represent (setProp "initialize" (JBool true) output)), s2)
                    end
                  else (Resolved (represent output), s1)
              end
        end
    end.
End Handler.

End SetupHandler.


(** Collaborators of the setup handler that keep a log of the calls made to
    them, used to run the handler on concrete requests. *)

Module SetupScenario.
Import SetupHandler.

Definition logged (name : string) (r : Settled JsValue) : Async (list string) JsValue :=
  fun log => (r, log ++ [name]).

Definition storageSaying (v : JsValue) : KeyValueStorage (list string) :=
  mkStorage (fun _ => logged "storage.get" (Resolved v)).

Definition initializerOk : Initializer (list string) :=
  mkInitializer (logged "initializer.handleSafe" (Resolved JUndefined)).

Definition details : JsValue :=
  JObj [("email", JStr "alice@test.email"); ("createWebId", JBool true);
        ("register", JBool true); ("createPod", JBool true)].

Definition managerOk : RegistrationManager.RegistrationManager (list string) :=
  RegistrationManager.mkManager
    (fun input _ => Resolved input)
    (fun _ _ => logged "registrationManager.register" (Resolved details)).

Definition managerRejecting (e : JsValue) : RegistrationManager.RegistrationManager (list string) :=
  RegistrationManager.mkManager
    (fun _ _ => Rejected e)
    (fun _ _ => logged "registrationManager.register" (Resolved details)).

Definition handler (initialized : JsValue) : SetupHandlerArgs (list string) :=
  mkHandler (Some managerOk) (Some initializerOk) (storageSaying initialized) "rootInitialized".

Definition bare (initialized : JsValue) : SetupHandlerArgs (list string) :=
  mkHandler None None (storageSaying initialized) "rootInitialized".

(** The body is the JSON value that reading it yields. *)
Definition parsed : JsValue -> Async (list string) JsValue :=
  fun json log => (Resolved json, log).

(** A rendering that lists the keys of the object. *)
Definition keysOf (v : JsValue) : string :=
  match v with
  | JObj props => String.concat "," (map fst props)
  | _ => ""
  end.

End SetupScenario.


(** ** ClusterManager

    [setupWorkers], [setupApplication] and [spawnWorkers]
    (src/unnamed/part_000). The state is what the module and the [cluster]
    object hold: the [workers] array, the number of workers forked so far
    (a worker is named by its rank among the forks), the workers a
    ['message'] listener was attached to (one entry per listener) and the
    number of ['online'] and ['exit'] listeners on [cluster]. The listeners
    only log, except the ['exit'] listener, which forks. *)

Module ClusterManager.

Record Cluster : Type := mkCluster {
  workers : list nat;
  forked : nat;
  messageListeners : list nat;
  onlineListeners : nat;
  exitListeners : nat
}.

(** The module when it is loaded: [const workers = []]. *)
Definition loaded : Cluster := mkCluster [] 0 [] 0 0.

(** [workers.push(cluster.fork())] *)
Definition pushFork (c : Cluster) : Cluster :=
  mkCluster (workers c ++ [forked c]) (Datatypes.S (forked c))
    (messageListeners c) (onlineListeners c) (exitListeners c).

(** [workers[i].on('message', ...)], which throws when [workers[i]] is
    [undefined]. *)
Definition listenAt (i : nat) (c : Cluster) : Settled unit * Cluster :=
  match workers c !! i with
  | Some worker =>
      (Resolved tt,
       mkCluster (workers c) (forked c) (messageListeners c ++ [worker])
         (onlineListeners c) (exitListeners c))
  | None =>
      (Rejected (SetupHandler.typeErrorReading "undefined" "on"), c)
  end.

(** The [for] loop of [setupWorkers], from index [i], with [n] rounds to
    go. *)
Fixpoint forkLoop (n i : nat) (c : Cluster) : Settled unit * Cluster :=
  match n with
  | O => (Resolved tt, c)
  | Datatypes.S n' =>
      match listenAt i (pushFork c) with
      | (Resolved _, c') => forkLoop n' (Datatypes.S i) c'
      | (Rejected e, c') => (Rejected e, c')
      end
  end.

(** [setupWorkers()], with [numCores] the length of [cpus()]. *)
Definition setupWorkers (numCores : nat) (c : Cluster) : Settled unit * Cluster :=
  match forkLoop numCores 0 c with
  | (Resolved _, c') =>
      (Resolved tt,
       mkCluster (workers c') (forked c') (messageListeners c')
         (Datatypes.S (onlineListeners c')) (Datatypes.S (exitListeners c')))
  | (Rejected e, c') => (Rejected e, c')
  end.

(** The body of the ['exit'] listener:
    [workers.push(cluster.fork()); workers[workers.length - 1].on('message', ...)] *)
Definition onExit (c : Cluster) : Settled unit * Cluster :=
  let c1 := pushFork c in
  listenAt (length (workers c1) - 1) c1.

(** [cluster] emits ['exit']: every listener registered so far runs, up to
    the first that throws. *)
Fixpoint runExitListeners (n : nat) (c : Cluster) : Settled unit * Cluster :=
  match n with
  | O => (Resolved tt, c)
  | Datatypes.S n' =>
      match onExit c with
      | (Resolved _, c') => runExitListeners n' c'
      | (Rejected e, c') => (Rejected e, c')
      end
  end.

Definition emitExit (c : Cluster) : Settled unit * Cluster :=
  runExitListeners (exitListeners c) c.

Section Application.
Context {S T : Type}.

(** [setupApplication(startApplicationFn, isClusterMode)], on a process for
    which [cluster.isMaster] is [isMaster]; [None] is the [void] that
    [setupWorkers] returns. *)
Definition setupApplication (numCores : nat) (isMaster : bool)
    (startApplicationFn : Async S T) (isClusterMode : bool)
  : Async (Cluster * S) (option T) :=
  fun '(c, s) =>
    if isClusterMode && isMaster then
      match setupWorkers numCores c with
      | (Resolved _, c') => (Resolved None, (c', s))
      | (Rejected e, c') => (Rejected e, (c', s))
      end
    else
      match startApplicationFn s with
      | (Resolved t, s') => (Resolved (Some t), (c, s'))
      | (Rejected e, s') => (Rejected e, (c, s'))
      end.
End Application.

(** [spawnWorkers(isClusterMode)] *)
Definition spawnWorkers (numCores : nat) (isMaster : bool) (isClusterMode : bool)
    (c : Cluster) : Settled unit * Cluster :=
  if isClusterMode && isMaster then setupWorkers numCores c else (Resolved tt, c).

(** [k] workers exit one after the other. *)
Fixpoint afterExits (k : nat) (c : Cluster) : Settled unit * Cluster :=
  match k with
  | O => (Resolved tt, c)
  | Datatypes.S k' =>
      match emitExit c with
      | (Resolved _, c') => afterExits k' c'
      | (Rejected e, c') => (Rejected e, c')
      end
  end.

(** The number of ['message'] listeners attached to a worker. *)
Definition listenersOf (worker : nat) (c : Cluster) : nat :=
  length (filter (fun w => w = worker) (messageListeners c)).

End ClusterManager.


(** * Properties *)

(** ** The jittered timeout *)

Section Jitter.
Local Open Scope Q_scope.

Lemma inject_Z_pos (c : Z) : (0 < c)%Z -> 0 < inject_Z c.
Proof.
  intros Hc. change (inject_Z 0 < inject_Z c). rewrite <- Zlt_Qlt. exact Hc.
Qed.

(** *** Rounding to the nearest double *)

Lemma two_neq_0 : ~ (2 # 1) == 0.
Proof. discriminate. Qed.

Lemma pow2_pos e : 0 < pow2 e.
Proof. apply Qpower_0_lt. reflexivity. Qed.

Lemma pow2_add a b : pow2 (a + b) == pow2 a * pow2 b.
Proof. apply Qpower_plus, two_neq_0. Qed.

Lemma pow2_Z a : (0 <= a)%Z -> pow2 a == inject_Z (2 ^ a).
Proof. intros H. unfold pow2. rewrite Zpower_Qpower by exact H. reflexivity. Qed.

Lemma pow2_le a b : (a <= b)%Z -> pow2 a <= pow2 b.
Proof. intros H. apply Qpower_le_compat_l; [exact H | discriminate]. Qed.

Lemma pow2_lt a b : (a < b)%Z -> pow2 a < pow2 b.
Proof. intros H. apply Qpower_lt_compat_l; [exact H | reflexivity]. Qed.


Lemma pow2_shift a b : pow2 (a - b) * pow2 b == pow2 a.
Proof. rewrite <- pow2_add. replace (a - b + b)%Z with a by lia. reflexivity. Qed.

Lemma positive_num (x : Q) : 0 < x -> exists p, Qnum x = Zpos p.
Proof.
  destruct x as [[| p | p] d]; unfold Qlt; simpl; intros H; try lia. exists p. reflexivity.
Qed.

Lemma log2_bounds_Q (x : Q) :
  0 < x ->
  pow2 (Z.log2 (Qnum x) - Z.log2 (Zpos (Qden x)) - 1) <= x
  /\ x < pow2 (Z.log2 (Qnum x) - Z.log2 (Zpos (Qden x)) + 1).
Proof.
  intros Hx. destruct (positive_num x Hx) as [p Hp].
  destruct x as [n d]. cbn [Qnum Qden] in *. subst n.
  set (a := Z.log2 (Zpos p)). set (b := Z.log2 (Zpos d)).
  assert (Ha : (0 <= a)%Z) by apply Z.log2_nonneg.
  assert (Hb : (0 <= b)%Z) by apply Z.log2_nonneg.
  destruct (Z.log2_spec (Zpos p) ltac:(lia)) as [Ha1 Ha2]. fold a in Ha1, Ha2.
  destruct (Z.log2_spec (Zpos d) ltac:(lia)) as [Hb1 Hb2]. fold b in Hb1, Hb2.
  rewrite <- Z.add_1_r in Ha2, Hb2.
  assert (HA : (0 < 2 ^ a)%Z) by (apply Z.pow_pos_nonneg; lia).
  assert (HB : (0 < 2 ^ b)%Z) by (apply Z.pow_pos_nonneg; lia).
  rewrite Z.pow_add_r in Ha2, Hb2 by lia. change (2 ^ 1)%Z with 2%Z in Ha2, Hb2.
  split.
  - apply (Qmult_le_r _ _ (pow2 (b + 1))); [apply pow2_pos |].
    replace (a - b - 1)%Z with (a - (b + 1))%Z by lia.
    rewrite pow2_shift, (pow2_Z a) by lia. rewrite (pow2_Z (b + 1)) by lia.
    rewrite Z.pow_add_r by lia. change (2 ^ 1)%Z with 2%Z.
    generalize dependent (2 ^ a)%Z. generalize dependent (2 ^ b)%Z. intros B Hb1 Hb2 HB A Ha1 Ha2 HA.
    unfold Qle, Qmult, inject_Z. cbn [Qnum Qden].
    assert (A * Z.pos d <= Z.pos p * Z.pos d)%Z by nia.
    assert (Z.pos p * Z.pos d <= Z.pos p * (B * 2))%Z by nia. lia.
  - apply (Qmult_lt_r _ _ (pow2 b)); [apply pow2_pos |].
    replace (a - b + 1)%Z with (a + 1 - b)%Z by lia.
    rewrite pow2_shift, (pow2_Z b) by lia. rewrite (pow2_Z (a + 1)) by lia.
    rewrite Z.pow_add_r by lia. change (2 ^ 1)%Z with 2%Z.
    generalize dependent (2 ^ a)%Z. generalize dependent (2 ^ b)%Z. intros B Hb1 Hb2 HB A Ha1 Ha2 HA.
    unfold Qlt, Qmult, inject_Z. cbn [Qnum Qden].
    assert (Z.pos p * B < A * 2 * B)%Z by nia.
    assert (A * 2 * B <= A * 2 * Z.pos d)%Z by nia. lia.
Qed.

Lemma binade_spec (x : Q) :
  0 < x -> pow2 (binade x) <= x /\ x < pow2 (binade x + 1).
Proof.
  intros Hx. destruct (log2_bounds_Q x Hx) as [Hlo Hhi]. unfold binade.
  set (l := (Z.log2 (Qnum x) - Z.log2 (Zpos (Qden x)))%Z) in *.
  destruct (Qle_bool (pow2 l) x) eqn:E.
  - apply Qle_bool_iff in E. split; assumption.
  - split; [exact Hlo |]. replace (l - 1 + 1)%Z with l by lia.
    apply Qnot_le_lt. intros H. apply Qle_bool_iff in H. congruence.
Qed.

Lemma roundHalfEven_floor (s : Q) :
  (Qfloor s <= roundHalfEven s <= Qfloor s + 1)%Z.
Proof.
  unfold roundHalfEven. destruct (s - inject_Z (Qfloor s) ?= 1 # 2); try lia.
  destruct (Z.even (Qfloor s)); lia.
Qed.


Lemma roundHalfEven_le_int (s : Q) (N : Z) : s <= inject_Z N -> (roundHalfEven s <= N)%Z.
Proof.
  intros H. pose proof (Qfloor_le s) as Hlo.
  assert (Hq : (Qfloor s <= N)%Z) by (rewrite Zle_Qle; lra).
  destruct (Z.eq_dec (Qfloor s) N) as [E | Hne].
  - unfold roundHalfEven.
    destruct (Qcompare_spec (s - inject_Z (Qfloor s)) (1 # 2)) as [C | C | C];
      rewrite E in *; try lia; lra.
  - pose proof (roundHalfEven_floor s). lia.
Qed.



Lemma roundDouble_positive (x : Q) : 0 < x -> roundDouble x = roundPositive x.
Proof.
  intros Hx. destruct (positive_num x Hx) as [p Hp]. unfold roundDouble. rewrite Hp. reflexivity.
Qed.

Lemma roundDouble_zero (x : Q) : x == 0 -> roundDouble x = 0.
Proof.
  intros Hx. unfold roundDouble. destruct x as [[| p | p] d]; try reflexivity;
    unfold Qeq in Hx; simpl in Hx; lia.
Qed.

Lemma pow2_52 : pow2 52 == 4503599627370496 # 1.
Proof. reflexivity. Qed.


Lemma pow2_m1 : pow2 (-1) == 1 # 2.
Proof. reflexivity. Qed.

Lemma scaled_bounds (x : Q) :
  0 < x ->
  pow2 52 <= x * pow2 (- (binade x - 52)) /\ x * pow2 (- (binade x - 52)) < pow2 53.
Proof.
  intros Hx. destruct (binade_spec x Hx) as [Hlo Hhi].
  pose proof (pow2_pos (- (binade x - 52))) as HP.
  split.
  - setoid_replace (pow2 52) with (pow2 (binade x) * pow2 (- (binade x - 52))) using relation Qeq.
    + apply Qmult_le_compat_r; [exact Hlo | apply Qlt_le_weak, HP].
    + rewrite <- pow2_add. replace (binade x + - (binade x - 52))%Z with 52%Z by lia. reflexivity.
  - setoid_replace (pow2 53) with (pow2 (binade x + 1) * pow2 (- (binade x - 52))) using relation Qeq.
    + apply Qmult_lt_compat_r; assumption.
    + rewrite <- pow2_add. replace (binade x + 1 + - (binade x - 52))%Z with 53%Z by lia. reflexivity.
Qed.

Lemma inject_Z_shift (Y k : Z) : (0 <= k)%Z -> inject_Z (Y * 2 ^ k) == inject_Z Y * pow2 k.
Proof. intros Hk. rewrite inject_Z_mult, (pow2_Z k Hk). reflexivity. Qed.

(** A double at or above [x] is at or above the rounding of [x]. *)
Lemma roundDouble_le_double (x : Q) (Y f : Z) :
  0 < x -> (0 < Y < 2 ^ 53)%Z ->
  x <= inject_Z Y * pow2 f -> roundDouble x <= inject_Z Y * pow2 f.
Proof.
  intros Hx HY Hle. rewrite (roundDouble_positive x Hx). unfold roundPositive.
  set (e := (binade x - 52)%Z).
  destruct (scaled_bounds x Hx) as [Hs _]. fold e in Hs.
  pose proof (pow2_pos (- e)) as HP. pose proof (pow2_pos e) as HPe.
  assert (Hscaled : x * pow2 (- e) <= inject_Z Y * pow2 (f - e)).
  { setoid_replace (inject_Z Y * pow2 (f - e)) with (inject_Z Y * pow2 f * pow2 (- e)) using relation Qeq.
    - apply Qmult_le_compat_r; [exact Hle | apply Qlt_le_weak, HP].
    - rewrite <- Qmult_assoc, <- pow2_add. reflexivity. }
  assert (HYQ : inject_Z Y < 9007199254740992 # 1).
  { change (9007199254740992 # 1) with (inject_Z (2 ^ 53)). rewrite <- Zlt_Qlt. lia. }
  assert (HY0 : 0 < inject_Z Y).
  { change 0 with (inject_Z 0). rewrite <- Zlt_Qlt. lia. }
  assert (Hfe : (e <= f)%Z).
  { destruct (Z_le_gt_dec e f) as [H | H]; [exact H | exfalso].
    assert (Hp : pow2 (f - e) <= 1 # 2).
    { rewrite <- pow2_m1. apply pow2_le. lia. }
    assert (inject_Z Y * pow2 (f - e) <= inject_Z Y * (1 # 2)).
    { apply Qmult_le_l; assumption. }
    rewrite pow2_52 in Hs. lra. }
  set (N := (Y * 2 ^ (f - e))%Z).
  assert (HN : inject_Z N == inject_Z Y * pow2 (f - e)) by (apply inject_Z_shift; lia).
  assert (Hm : (roundHalfEven (x * pow2 (- e)) <= N)%Z).
  { apply roundHalfEven_le_int. rewrite HN. exact Hscaled. }
  setoid_replace (inject_Z Y * pow2 f) with (inject_Z N * pow2 e) using relation Qeq.
  - apply Qmult_le_compat_r; [rewrite <- Zle_Qle; exact Hm | apply Qlt_le_weak, HPe].
  - rewrite HN, <- Qmult_assoc, <- pow2_add. replace (f - e + e)%Z with f by lia. reflexivity.
Qed.






Lemma Qle_zero_cases (x : Q) : 0 <= x -> x == 0 \/ 0 < x.
Proof. intros H. destruct (Qlt_le_dec 0 x) as [L | L]; [right; exact L | left; lra]. Qed.



(** The least offset is drawn more often than any other: [1] comes from
    the floors [0] and [1]. *)
Lemma jitterOf_least_doubled (r : Q) (c : Z) :
  (0 < c)%Z -> 0 <= r -> r * inject_Z c <= 3 # 2 -> jitterOf r c = 1%Z.
Proof.
  intros Hc Hr0 Hr2. unfold jitterOf.
  destruct (Z.ltb_spec 0 c) as [_ | ?]; [| lia].
  assert (Hc' : 0 < inject_Z c) by (apply inject_Z_pos; lia).
  destruct (Qle_zero_cases r Hr0) as [Hz | Hp].
  - rewrite roundDouble_zero by (rewrite Hz; ring). change (Qfloor 0) with 0%Z. lia.
  - assert (Hx : 0 < r * inject_Z c) by (apply Qmult_lt_0_compat; assumption).
    assert (Hle : roundDouble (r * inject_Z c) <= inject_Z 3 * pow2 (-1)).
    { apply roundDouble_le_double; [exact Hx | split; reflexivity |].
      rewrite pow2_m1. change (inject_Z 3) with 3. lra. }
    rewrite pow2_m1 in Hle. change (inject_Z 3) with 3 in Hle.
    enough (Qfloor (roundDouble (r * inject_Z c)) < 2)%Z by lia.
    rewrite Zlt_Qlt. change (inject_Z 2) with 2.
    eapply Qle_lt_trans; [apply Qfloor_le |]. lra.
Qed.


(** The product is rounded before it is floored: for the draw
    [0.5666666666666667] and the jitter 30 the exact product lies just
    below 17, the double product is 17, and the timer of
    [setJitterTimeout(50, 30)] is set to 67 ms. *)
Example rounding_decides_the_offset :
  isDouble (2552039788843281 # 4503599627370496) = true
  /\ Qfloor ((2552039788843281 # 4503599627370496) * inject_Z 30) = 16%Z
  /\ jitterOf (2552039788843281 # 4503599627370496) 30 = 17%Z
  /\ trace (setJitterTimeout 50 (Some 30%Z)
              (mkWorld tt (fun _ => 2552039788843281 # 4503599627370496) 0 []))
     = [EvTimeout 67].
Proof. vm_compute. repeat split. Qed.

Lemma setJitterTimeout_trace {S} (d : Z) (j : option Z) (w : World S) :
  trace (setJitterTimeout d j w) =
  trace w ++ [EvTimeout (calcTimeWith (random w (drawn w)) d (default 0%Z j))].
Proof.
  unfold setJitterTimeout, calcTime, calcTimeWith, jitterOf.
  destruct (0 <? default 0 j)%Z; reflexivity.
Qed.

Lemma setJitterTimeout_prim {S} (d : Z) (j : option Z) (w : World S) :
  prim (setJitterTimeout d j w) = prim w.
Proof.
  unfold setJitterTimeout, calcTime. destruct (0 <? default 0 j)%Z; reflexivity.
Qed.

Lemma setJitterTimeout_random {S} (d : Z) (j : option Z) (w : World S) :
  random (setJitterTimeout d j w) = random w.
Proof.
  unfold setJitterTimeout, calcTime. destruct (0 <? default 0 j)%Z; reflexivity.
Qed.

Lemma setJitterTimeout_drawn {S} (d : Z) (j : option Z) (w : World S) :
  drawn (setJitterTimeout d j w) =
  (drawn w + if (0 <? default 0 j)%Z then 1 else 0)%nat.
Proof.
  unfold setJitterTimeout, calcTime. destruct (0 <? default 0 j)%Z; simpl; lia.
Qed.





(** C10: whatever the delay and the jitter, the timer is set to
    [max(0, d + U)], which is never negative. *)
Theorem setJitterTimeout_never_negative {S} (d : Z) (j : option Z) (w : World S) :
  exists ms,
    trace (setJitterTimeout d j w) = trace w ++ [EvTimeout ms]
    /\ ms = Z.max 0 (d + jitterOf (random w (drawn w)) (default 0%Z j))
    /\ (0 <= ms)%Z.
Proof.
  eexists. split; [apply setJitterTimeout_trace |].
  unfold calcTimeWith. split; [reflexivity | lia].
Qed.

End Jitter.

(** ** The retry loop *)

Section TraceCounts.

Lemma attemptCount_attempt (t : list Event) :
  attemptCount (t ++ [EvAttempt]) = Datatypes.S (attemptCount t).
Proof.
  unfold attemptCount. rewrite filter_app, length_app. simpl. lia.
Qed.

Lemma attemptCount_timeout (t : list Event) (ms : Z) :
  attemptCount (t ++ [EvTimeout ms]) = attemptCount t.
Proof.
  unfold attemptCount. rewrite filter_app, length_app. simpl. lia.
Qed.

Lemma timeoutCount_attempt (t : list Event) :
  timeoutCount (t ++ [EvAttempt]) = timeoutCount t.
Proof.
  unfold timeoutCount. rewrite filter_app, length_app. simpl. lia.
Qed.

Lemma timeoutCount_timeout (t : list Event) (ms : Z) :
  timeoutCount (t ++ [EvTimeout ms]) = Datatypes.S (timeoutCount t).
Proof.
  unfold timeoutCount. rewrite filter_app, length_app. simpl. lia.
Qed.

End TraceCounts.

Section Loop.
Context {S : Type}.
Variable fn : Async S LockRequestState.
Variables retryDelay retryJitter : Z.
Variable maxTries : Tries.

Local Abbreviation loop := (fun fuel => retryLoop fuel fn retryDelay retryJitter maxTries).
Local Abbreviation sleep := (setJitterTimeout retryDelay (Some retryJitter)).

Lemma invoke_eq (w : World S) (r : Settled LockRequestState) (s' : S) :
  fn (prim w) = (r, s') -> invoke fn w = (r, withPrim (logAttempt w) s').
Proof. intros E. unfold invoke. rewrite E. reflexivity. Qed.

Lemma invoke_trace (w : World S) : trace (snd (invoke fn w)) = trace w ++ [EvAttempt].
Proof. unfold invoke. destruct (fn (prim w)). reflexivity. Qed.

Lemma invoke_prim (w : World S) : prim (snd (invoke fn w)) = snd (fn (prim w)).
Proof. unfold invoke. destruct (fn (prim w)). reflexivity. Qed.

Lemma invoke_result (w : World S) : fst (invoke fn w) = fst (fn (prim w)).
Proof. unfold invoke. destruct (fn (prim w)). reflexivity. Qed.

(** The loop is not entered: the state does not ask for a retry, or the
    budget is used up. *)
Lemma retryLoop_exit (fuel : nat) (state : LockRequestState) (tries : Z) (w : World S) :
  shouldRetry state && triesLe tries maxTries = false ->
  loop fuel state tries w =
    if triesGt tries maxTries
    then Some (Rejected (InternalServerError (budgetMessage maxTries)), w)
    else Some (Resolved JUndefined, w).
Proof. intros E. destruct fuel; simpl; rewrite E; reflexivity. Qed.

(** One round that ends in a retry. *)
Lemma retryLoop_round (fuel : nat) (state st : LockRequestState) (tries : Z)
    (w : World S) (s' : S) :
  shouldRetry state = true -> triesLe tries maxTries = true ->
  fn (prim w) = (Resolved st, s') -> isRetryable st ->
  loop (Datatypes.S fuel) state tries w =
    loop fuel st (tries + 1) (sleep (snd (invoke fn w))).
Proof.
  intros Hs Ht E Hr. simpl. rewrite Hs, Ht. simpl.
  rewrite (invoke_eq w _ _ E). simpl. rewrite Hr. reflexivity.
Qed.

(** One round that ends the loop: the attempt does not ask for a retry. *)
Lemma retryLoop_settle (fuel : nat) (state st : LockRequestState) (tries : Z)
    (w : World S) (s' : S) :
  shouldRetry state = true -> triesLe tries maxTries = true ->
  fn (prim w) = (Resolved st, s') -> shouldRetry st = false ->
  loop (Datatypes.S fuel) state tries w =
    Some (if truthy (error st) then Rejected (error st)
          else if truthy (response st) then Resolved (response st)
          else Resolved JUndefined,
          withPrim (logAttempt w) s').
Proof.
  intros Hs Ht E Hr. simpl. rewrite Hs, Ht. simpl.
  rewrite (invoke_eq w _ _ E). simpl. rewrite Hr.
  destruct (truthy (error st)); [reflexivity |].
  destruct (truthy (response st)); [reflexivity |].
  rewrite retryLoop_exit by (rewrite Hr; reflexivity).
  assert (G : triesGt tries maxTries = false).
  { destruct maxTries; simpl in *; [lia | reflexivity]. }
  rewrite G. reflexivity.
Qed.

Lemma triesLe_earlier (a b : Z) : a <= b -> triesLe b maxTries = true -> triesLe a maxTries = true.
Proof. destruct maxTries; simpl; [lia | reflexivity]. Qed.

(** [n] rounds that each end in a retry. *)
Lemma retryLoop_rounds (n fuel : nat) (state : LockRequestState) (tries : Z) (w : World S) :
  shouldRetry state = true ->
  (n = O \/ triesLe (tries + Z.of_nat n - 1) maxTries = true) ->
  allRetryable fn n (prim w) ->
  exists st,
    shouldRetry st = true /\
    loop (n + fuel)%nat state tries w =
      loop fuel st (tries + Z.of_nat n) (afterRetries fn retryDelay retryJitter n w).
Proof.
  revert state tries w. induction n as [| n IH]; intros state tries w Hs Hb Hall.
  - exists state. split; [exact Hs |]. simpl. f_equal. lia.
  - destruct Hb as [Hb | Hb]; [discriminate |].
    simpl in Hall. destruct (fn (prim w)) as [[st | e] s'] eqn:E; [| contradiction].
    destruct Hall as [Hr Hall].
    assert (Ht : triesLe tries maxTries = true)
      by (apply triesLe_earlier with (b := tries + Z.of_nat (Datatypes.S n) - 1); [lia | exact Hb]).
    destruct (IH st (tries + 1) (sleep (snd (invoke fn w)))) as (st' & Hs' & E').
    + exact Hr.
    + destruct n; [left; reflexivity | right].
      replace (tries + 1 + Z.of_nat (Datatypes.S n) - 1)
        with (tries + Z.of_nat (Datatypes.S (Datatypes.S n)) - 1) by lia.
      exact Hb.
    + rewrite setJitterTimeout_prim, invoke_prim, E. exact Hall.
    + exists st'. split; [exact Hs' |].
      change (Datatypes.S n + fuel)%nat with (Datatypes.S (n + fuel)).
      rewrite (retryLoop_round _ state st tries w s' Hs Ht E Hr), E'.
      simpl. f_equal. lia.
Qed.

Lemma afterRetries_attempts (n : nat) (w : World S) :
  attemptCount (trace (afterRetries fn retryDelay retryJitter n w)) =
  (attemptCount (trace w) + n)%nat.
Proof.
  revert w. induction n as [| n IH]; intros w; simpl; [lia |].
  rewrite IH, setJitterTimeout_trace, attemptCount_timeout, invoke_trace,
    attemptCount_attempt. lia.
Qed.

Lemma afterRetries_timeouts (n : nat) (w : World S) :
  timeoutCount (trace (afterRetries fn retryDelay retryJitter n w)) =
  (timeoutCount (trace w) + n)%nat.
Proof.
  revert w. induction n as [| n IH]; intros w; simpl; [lia |].
  rewrite IH, setJitterTimeout_trace, timeoutCount_timeout, invoke_trace,
    timeoutCount_attempt. lia.
Qed.

Lemma invoke_random (w : World S) : random (snd (invoke fn w)) = random w.
Proof. unfold invoke. destruct (fn (prim w)). reflexivity. Qed.

Lemma invoke_drawn (w : World S) : drawn (snd (invoke fn w)) = drawn w.
Proof. unfold invoke. destruct (fn (prim w)). reflexivity. Qed.

(** The rounds call [fn] one after the other on the state of the
    primitive. *)
Lemma afterRetries_prim (n : nat) (w : World S) :
  prim (afterRetries fn retryDelay retryJitter n w) = stateAfter fn n (prim w).
Proof.
  revert w. induction n as [| n IH]; intros w; simpl; [reflexivity |].
  rewrite IH, setJitterTimeout_prim, invoke_prim. reflexivity.
Qed.

Lemma afterRetries_random (n : nat) (w : World S) :
  random (afterRetries fn retryDelay retryJitter n w) = random w.
Proof.
  revert w. induction n as [| n IH]; intros w; simpl; [reflexivity |].
  rewrite IH, setJitterTimeout_random, invoke_random. reflexivity.
Qed.

(** The rounds add an attempt and a timer each. *)
Lemma afterRetries_trace (n : nat) (w : World S) :
  trace (afterRetries fn retryDelay retryJitter n w) =
  trace w ++ roundsTrace (random w) (drawn w) retryDelay retryJitter n.
Proof.
  revert w. induction n as [| n IH]; intros w; simpl; [rewrite app_nil_r; reflexivity |].
  rewrite IH, setJitterTimeout_trace, setJitterTimeout_random, setJitterTimeout_drawn,
    invoke_trace, invoke_random, invoke_drawn.
  change (default 0 (Some retryJitter)) with retryJitter.
  rewrite <- !app_assoc. simpl. do 3 f_equal.
  destruct (0 <? retryJitter); [rewrite Nat.add_1_r | rewrite Nat.add_0_r]; reflexivity.
Qed.

Lemma alwaysRetryable_all (n : nat) (s : S) : alwaysRetryable fn -> allRetryable fn n s.
Proof.
  intros H. revert s. induction n as [| n IH]; intros s; simpl; [exact I |].
  destruct (H s) as (st & s' & E & Hr). rewrite E. split; [exact Hr | apply IH].
Qed.

End Loop.

Section LoopInvariant.
Context {S : Type}.
Variable fn : Async S LockRequestState.
Variables retryDelay retryJitter : Z.
Variable maxTries : Tries.

Local Abbreviation loop := (fun fuel => retryLoop fuel fn retryDelay retryJitter maxTries).
Local Abbreviation sleep := (setJitterTimeout retryDelay (Some retryJitter)).

(** A relation between the start of the loop and its result holds of every
    run that settles when it holds of the three ways the loop ends and is
    carried back over a round that retries. *)
Lemma retryLoop_inv (P : Z -> World S -> Settled JsValue -> World S -> Prop) :
  (forall tries w,
     P tries w (if triesGt tries maxTries
                then Rejected (InternalServerError (budgetMessage maxTries))
                else Resolved JUndefined) w) ->
  (forall tries w e s',
     triesLe tries maxTries = true ->
     fn (prim w) = (Rejected e, s') ->
     P tries w (Rejected e) (withPrim (logAttempt w) s')) ->
  (forall tries w st s',
     triesLe tries maxTries = true ->
     fn (prim w) = (Resolved st, s') -> shouldRetry st = false ->
     P tries w (if truthy (error st) then Rejected (error st)
                else if truthy (response st) then Resolved (response st)
                else Resolved JUndefined)
       (withPrim (logAttempt w) s')) ->
  (forall tries w st s' r w',
     triesLe tries maxTries = true ->
     fn (prim w) = (Resolved st, s') -> shouldRetry st = true ->
     P (tries + 1) (sleep (withPrim (logAttempt w) s')) r w' ->
     P tries w r w') ->
  forall fuel state tries w r w',
    loop fuel state tries w = Some (r, w') -> P tries w r w'.
Proof.
  intros Hexit Hthrow Hsettle Hretry.
  induction fuel as [| fuel IH]; intros state tries w r w' E.
  - simpl in E. destruct (shouldRetry state && triesLe tries maxTries); [discriminate |].
    destruct (triesGt tries maxTries) eqn:G; injection E as <- <-;
      specialize (Hexit tries w); rewrite G in Hexit; exact Hexit.
  - destruct (shouldRetry state && triesLe tries maxTries) eqn:C.
    + apply andb_prop in C as [Cs Ct].
      destruct (fn (prim w)) as [[st | e] s'] eqn:F.
      * destruct (shouldRetry st) eqn:R.
        -- rewrite (retryLoop_round fn _ _ _ fuel state st tries w s' Cs Ct F R) in E.
           rewrite (invoke_eq fn w _ _ F) in E. simpl in E.
           apply (Hretry tries w st s' r w' Ct F R). eapply IH. exact E.
        -- rewrite (retryLoop_settle fn _ _ _ fuel state st tries w s' Cs Ct F R) in E.
           injection E as <- <-. apply Hsettle; assumption.
      * simpl in E. rewrite Cs, Ct in E. simpl in E.
        rewrite (invoke_eq fn w _ _ F) in E. injection E as <- <-.
        apply Hthrow; assumption.
    + rewrite (retryLoop_exit fn _ _ _ _ state tries w C) in E.
      destruct (triesGt tries maxTries) eqn:G; injection E as <- <-;
        specialize (Hexit tries w); rewrite G in Hexit; exact Hexit.
Qed.


Lemma triesGt_of_not_le (tries : Z) : triesLe tries maxTries = false -> triesGt tries maxTries = true.
Proof. destruct maxTries; simpl; [lia | discriminate]. Qed.

(** Every run that settles is made of [n] rounds that retry, followed
    either by the end of the budget or by one more invocation of the
    attempt, which rejects or does not ask for a retry. *)
Lemma retryLoop_run (fuel : nat) (state : LockRequestState) (tries : Z) (w : World S)
    (r : Settled JsValue) (w' : World S) :
  shouldRetry state = true ->
  loop fuel state tries w = Some (r, w') ->
  exists n,
    allRetryable fn n (prim w)
    /\ (n = O \/ triesLe (tries + Z.of_nat n - 1) maxTries = true)
    /\ ((triesGt (tries + Z.of_nat n) maxTries = true
         /\ r = Rejected (InternalServerError (budgetMessage maxTries))
         /\ w' = afterRetries fn retryDelay retryJitter n w)
        \/ (triesLe (tries + Z.of_nat n) maxTries = true
            /\ exists x s',
                 fn (prim (afterRetries fn retryDelay retryJitter n w)) = (x, s')
                 /\ w' = withPrim (logAttempt (afterRetries fn retryDelay retryJitter n w)) s'
                 /\ match x with
                    | Rejected e => r = Rejected e
                    | Resolved st =>
                        shouldRetry st = false
                        /\ r = (if truthy (error st) then Rejected (error st)
                                else if truthy (response st) then Resolved (response st)
                                else Resolved JUndefined)
                    end)).
Proof.
  revert fuel state tries w.
  assert (Hexit : forall state tries w,
             shouldRetry state = true -> triesLe tries maxTries = false ->
             forall fuel, loop fuel state tries w = Some (r, w') ->
             exists n,
               allRetryable fn n (prim w)
               /\ (n = O \/ triesLe (tries + Z.of_nat n - 1) maxTries = true)
               /\ ((triesGt (tries + Z.of_nat n) maxTries = true
                    /\ r = Rejected (InternalServerError (budgetMessage maxTries))
                    /\ w' = afterRetries fn retryDelay retryJitter n w)
                   \/ (triesLe (tries + Z.of_nat n) maxTries = true
                       /\ exists x s',
                            fn (prim (afterRetries fn retryDelay retryJitter n w)) = (x, s')
                            /\ w' = withPrim (logAttempt (afterRetries fn retryDelay retryJitter n w)) s'
                            /\ match x with
                               | Rejected e => r = Rejected e
                               | Resolved st =>
                                   shouldRetry st = false
                                   /\ r = (if truthy (error st) then Rejected (error st)
                                           else if truthy (response st) then Resolved (response st)
                                           else Resolved JUndefined)
                               end))).
  { intros state tries w Hs Ht fuel E.
    rewrite retryLoop_exit in E by (rewrite Hs, Ht; reflexivity).
    rewrite (triesGt_of_not_le tries Ht) in E. injection E as <- <-.
    exists O. split; [exact I |]. split; [left; reflexivity |]. left.
    replace (tries + Z.of_nat 0) with tries by (simpl; lia).
    split; [apply triesGt_of_not_le, Ht |]. split; reflexivity. }
  induction fuel as [| fuel IH]; intros state tries w Hs E.
  - destruct (triesLe tries maxTries) eqn:Ht; [| exact (Hexit state tries w Hs Ht O E)].
    simpl in E. rewrite Hs, Ht in E. discriminate E.
  - destruct (triesLe tries maxTries) eqn:Ht; [| exact (Hexit state tries w Hs Ht _ E)].
    destruct (fn (prim w)) as [[st | e] s'] eqn:F.
    + destruct (shouldRetry st) eqn:R.
      * rewrite (retryLoop_round fn _ _ _ fuel state st tries w s' Hs Ht F R) in E.
        apply IH in E; [| exact R]. destruct E as (n & Hall & Hb & Hcase).
        rewrite setJitterTimeout_prim, invoke_prim, F in Hall. simpl in Hall.
        exists (Datatypes.S n). split; [| split].
        -- simpl. rewrite F. split; [exact R | exact Hall].
        -- right. replace (tries + Z.of_nat (Datatypes.S n) - 1) with (tries + Z.of_nat n) by lia.
           destruct Hb as [-> | Hb].
           ++ replace (tries + Z.of_nat 0) with tries by (simpl; lia). exact Ht.
           ++ replace (tries + 1 + Z.of_nat n - 1) with (tries + Z.of_nat n) in Hb by lia.
              exact Hb.
        -- replace (tries + 1 + Z.of_nat n) with (tries + Z.of_nat (Datatypes.S n)) in Hcase by lia.
           exact Hcase.
      * rewrite (retryLoop_settle fn _ _ _ fuel state st tries w s' Hs Ht F R) in E.
        injection E as <- <-.
        exists O. split; [exact I |]. split; [left; reflexivity |]. right.
        replace (tries + Z.of_nat 0) with tries by (simpl; lia).
        split; [exact Ht |]. exists (Resolved st), s'.
        split; [exact F |]. split; [reflexivity |]. split; [exact R | reflexivity].
    + simpl in E. rewrite Hs, Ht in E. simpl in E.
      rewrite (invoke_eq fn w _ _ F) in E. injection E as <- <-.
      exists O. split; [exact I |]. split; [left; reflexivity |]. right.
      replace (tries + Z.of_nat 0) with tries by (simpl; lia).
      split; [exact Ht |]. exists (Rejected e), s'.
      split; [exact F |]. split; reflexivity.
Qed.

End LoopInvariant.

Section EngineRuns.
Context {S : Type}.

Lemma maxTriesOf_finite (k : Z) : k <> -1 -> maxTriesOf k = Finite (k + 1).
Proof. intros H. unfold maxTriesOf. destruct (Z.eqb_spec k (-1)); [contradiction | reflexivity]. Qed.

Lemma withinBudget_triesLe (k : Z) (n : nat) :
  withinBudget k (Datatypes.S n) -> triesLe (1 + Z.of_nat n) (maxTriesOf k) = true.
Proof.
  intros [-> | H]; [reflexivity |].
  unfold maxTriesOf. destruct (Z.eqb_spec k (-1)); [reflexivity |]. simpl. lia.
Qed.

(** After [n] rounds that end in a retry, a round whose attempt does not
    ask for one ends the run: a truthy error is thrown, else a truthy
    response is returned, else the function returns [undefined]. *)
Lemma retry_settles_at (fn : Async S LockRequestState) (settings : RequiredAttemptSettings)
    (n fuel : nat) (w : World S) (st : LockRequestState) (s' : S) :
  let w1 := afterRetries fn (reqRetryDelay settings) (reqRetryJitter settings) n w in
  withinBudget (reqRetryCount settings) (Datatypes.S n) ->
  allRetryable fn n (prim w) ->
  fn (prim w1) = (Resolved st, s') ->
  shouldRetry st = false ->
  (n < fuel)%nat ->
  retryFunctionUntil fuel fn settings w =
    Some (if truthy (error st) then Rejected (error st)
          else if truthy (response st) then Resolved (response st)
          else Resolved JUndefined,
          withPrim (logAttempt w1) s').
Proof.
  intros w1 Hb Hall E Hr Hfuel. unfold retryFunctionUntil.
  replace fuel with (n + Datatypes.S (fuel - n - 1))%nat by lia.
  pose proof (withinBudget_triesLe _ _ Hb) as Hle.
  destruct (retryLoop_rounds fn (reqRetryDelay settings) (reqRetryJitter settings)
              (maxTriesOf (reqRetryCount settings)) n (Datatypes.S (fuel - n - 1))
              (mkState true JUndefined JUndefined) 1 w) as (st' & Hs' & E').
  - reflexivity.
  - destruct n; [left; reflexivity | right].
    apply triesLe_earlier with (b := 1 + Z.of_nat (Datatypes.S n)); [lia | exact Hle].
  - exact Hall.
  - rewrite E'. apply retryLoop_settle; assumption.
Qed.

End EngineRuns.

(** An attempt that always asks for a retry uses up a finite budget: the
    loop runs [retryCount + 1] rounds and then throws. *)
Lemma retryLoop_exhausts {S} (fn : Async S LockRequestState)
    (settings : RequiredAttemptSettings) (fuel : nat) (w : World S) :
  0 <= reqRetryCount settings ->
  alwaysRetryable fn ->
  (Z.to_nat (reqRetryCount settings + 1) <= fuel)%nat ->
  retryFunctionUntil fuel fn settings w =
    Some (Rejected (InternalServerError
                      (budgetMessage (Finite (reqRetryCount settings + 1)))),
          afterRetries fn (reqRetryDelay settings) (reqRetryJitter settings)
            (Z.to_nat (reqRetryCount settings + 1)) w).
Proof.
  intros Hk Hfn Hfuel.
  set (k := reqRetryCount settings) in *.
  set (n := Z.to_nat (k + 1)) in *.
  unfold retryFunctionUntil. fold k. rewrite maxTriesOf_finite by lia.
  replace fuel with (n + (fuel - n))%nat by lia.
  destruct (retryLoop_rounds fn (reqRetryDelay settings) (reqRetryJitter settings)
              (Finite (k + 1)) n (fuel - n)
              (mkState true JUndefined JUndefined) 1 w) as (st' & Hs' & E').
  - reflexivity.
  - right. unfold triesLe. subst n. apply Z.leb_le. lia.
  - apply alwaysRetryable_all, Hfn.
  - rewrite E', retryLoop_exit.
    + unfold triesGt.
      destruct (Z.ltb_spec (k + 1) (1 + Z.of_nat n)); [reflexivity | subst n; lia].
    + rewrite Hs'. unfold triesLe. simpl. apply Z.leb_gt. subst n. lia.
Qed.

(** C3: with [retryCount = k >= 0] and an attempt that asks for a retry on
    every invocation, the run invokes the attempt exactly [k + 1] times,
    one after the other on the state of the primitive, each invocation
    followed by a timer, and then fails with the budget-exhausted error;
    nothing else is added to the trace. With [retryCount = 2] that is after
    exactly 3 attempts. *)
Theorem retry_budget_exhausted {S} (fn : Async S LockRequestState)
    (settings : RequiredAttemptSettings) (fuel : nat) (w : World S) :
  0 <= reqRetryCount settings ->
  alwaysRetryable fn ->
  (Z.to_nat (reqRetryCount settings + 1) <= fuel)%nat ->
  exists w',
    retryFunctionUntil fuel fn settings w =
      Some (Rejected (InternalServerError
                        (budgetMessage (Finite (reqRetryCount settings + 1)))), w')
    /\ prim w' = stateAfter fn (Z.to_nat (reqRetryCount settings + 1)) (prim w)
    /\ trace w' =
         trace w ++ roundsTrace (random w) (drawn w) (reqRetryDelay settings)
                      (reqRetryJitter settings) (Z.to_nat (reqRetryCount settings + 1))
    /\ attemptCount (trace w') =
         (attemptCount (trace w) + Z.to_nat (reqRetryCount settings + 1))%nat
    /\ timeoutCount (trace w') =
         (timeoutCount (trace w) + Z.to_nat (reqRetryCount settings + 1))%nat
    /\ (reqRetryCount settings = 2 ->
          attemptCount (trace w') = (attemptCount (trace w) + 3)%nat
          /\ prim w' = snd (fn (snd (fn (snd (fn (prim w))))))
          /\ exists t1 t2 t3,
               trace w' = trace w ++ [EvAttempt; EvTimeout t1; EvAttempt; EvTimeout t2;
                                      EvAttempt; EvTimeout t3]).
Proof.
  intros Hk Hfn Hfuel. eexists.
  split; [apply retryLoop_exhausts; assumption |].
  split; [apply afterRetries_prim |].
  split; [apply afterRetries_trace |].
  split; [apply afterRetries_attempts |].
  split; [apply afterRetries_timeouts |].
  intros E. rewrite afterRetries_attempts, afterRetries_prim, afterRetries_trace, E.
  split; [reflexivity |]. split; [reflexivity |].
  do 3 eexists. reflexivity.
Qed.

Lemma retry_budget_exhausted_witness :
  exists w',
    retryFunctionUntil 3
      (toRetryOnError (fun _ => false)
         (fun calls : nat => (Rejected Scenario.lockedError, Datatypes.S calls)))
      (mkRequired 2 50 30) (Scenario.start O) =
      Some (Rejected (InternalServerError
        "The operation did not succeed after the set maximum of tries (3)."), w')
    /\ prim w' = 3%nat
    /\ trace w' = [EvAttempt; EvTimeout 51; EvAttempt; EvTimeout 51; EvAttempt; EvTimeout 51]
    /\ attemptCount (trace w') = 3%nat.
Proof.
  destruct (retry_budget_exhausted
              (toRetryOnError (fun _ => false)
                 (fun calls : nat => (Rejected Scenario.lockedError, Datatypes.S calls)))
              (mkRequired 2 50 30) 3 (Scenario.start O))
    as (w' & E & Hp & Ht & _ & _ & H3).
  - simpl. lia.
  - intros s. eexists. eexists. split; reflexivity.
  - simpl. lia.
  - exists w'.
    split; [exact E | split; [exact Hp | split; [exact Ht | exact (proj1 (H3 eq_refl))]]].
Defined.

(** X1: a success after [n] retries, within the budget: the run ends right
    after that attempt, with [n + 1] invocations and [n] timers. A truthy
    value is returned; in place of a falsy one the run returns
    [undefined]. *)
Lemma retry_returns_success {S} (fn : Async S LockRequestState)
    (settings : RequiredAttemptSettings) (n fuel : nat) (w : World S)
    (st : LockRequestState) (v : JsValue) (s' : S) :
  withinBudget (reqRetryCount settings) (Datatypes.S n) ->
  allRetryable fn n (prim w) ->
  fn (prim (afterRetries fn (reqRetryDelay settings) (reqRetryJitter settings) n w))
    = (Resolved st, s') ->
  isSuccess st v ->
  (n < fuel)%nat ->
  exists w',
    retryFunctionUntil fuel fn settings w =
      Some (Resolved (if truthy v then v else JUndefined), w')
    /\ prim w' = s'
    /\ attemptCount (trace w') = (attemptCount (trace w) + n + 1)%nat
    /\ timeoutCount (trace w') = (timeoutCount (trace w) + n)%nat.
Proof.
  intros Hb Hall E Hst Hfuel. unfold isSuccess in Hst. subst st.
  eexists. split; [| split; [| split]].
  - rewrite (retry_settles_at fn settings n fuel w _ s' Hb Hall E eq_refl Hfuel).
    simpl. destruct (truthy v); reflexivity.
  - reflexivity.
  - simpl. rewrite attemptCount_attempt, afterRetries_attempts. lia.
  - simpl. rewrite timeoutCount_attempt, afterRetries_timeouts. lia.
Qed.

Lemma retry_returns_success_witness :
  exists w',
    retryFunctionUntil 2 (toRetryOnBoolean false Scenario.scripted) Scenario.threeTries
      (Scenario.start [Resolved (JBool false); Resolved (JBool true)])
      = Some (Resolved (JBool true), w')
    /\ prim w' = []
    /\ attemptCount (trace w') = 2%nat
    /\ timeoutCount (trace w') = 1%nat.
Proof.
  apply (retry_returns_success (toRetryOnBoolean false Scenario.scripted)
           Scenario.threeTries 1 2
           (Scenario.start [Resolved (JBool false); Resolved (JBool true)])
           (mkState false (JBool true) JUndefined) (JBool true) []).
  - right. simpl. lia.
  - split; [reflexivity | exact I].
  - reflexivity.
  - reflexivity.
  - lia.
Defined.

(** C2 fails on falsy values: an attempt that succeeds at once with
    [false], [0] or the empty string makes [retryFunctionUntil] resolve
    with [undefined] (after that one attempt), while a truthy value such as
    [true] is returned. *)
Theorem falsy_success_is_dropped :
  retryFunctionUntil 1 (Scenario.succeedsWith (JBool false)) Scenario.threeTries
      (Scenario.start tt)
    = Some (Resolved JUndefined, mkWorld tt (fun _ => 0%Q) 0 [EvAttempt])
  /\ retryFunctionUntil 1 (Scenario.succeedsWith (JNum 0)) Scenario.threeTries
      (Scenario.start tt)
    = Some (Resolved JUndefined, mkWorld tt (fun _ => 0%Q) 0 [EvAttempt])
  /\ retryFunctionUntil 1 (Scenario.succeedsWith (JStr "")) Scenario.threeTries
      (Scenario.start tt)
    = Some (Resolved JUndefined, mkWorld tt (fun _ => 0%Q) 0 [EvAttempt])
  /\ retryFunctionUntil 1
      (toRetryOnBoolean true (Scenario.always (Resolved (JBool false))))
      Scenario.threeTries (Scenario.start tt)
    = Some (Resolved JUndefined, mkWorld tt (fun _ => 0%Q) 0 [EvAttempt])
  /\ retryFunctionUntil 1 (Scenario.succeedsWith (JBool true)) Scenario.threeTries
      (Scenario.start tt)
    = Some (Resolved (JBool true), mkWorld tt (fun _ => 0%Q) 0 [EvAttempt]).
Proof. repeat split. Qed.

(** ** The adapters *)

Lemma strictEqBool_true (v : JsValue) (b : bool) : strictEqBool v b = true <-> v = JBool b.
Proof.
  destruct v; simpl; try (split; [discriminate | discriminate]).
  split.
  - intros H. apply Bool.eqb_prop in H. subst. reflexivity.
  - intros H. injection H as ->. apply Bool.eqb_reflx.
Qed.

(** C6: [toRetryOnError(p, fn)] turns a rejection with [e] into a terminal
    outcome exactly when [p e] holds and into a retryable outcome carrying
    [e] otherwise, and a resolution with [v] into a success carrying [v]; an
    attempt that always rejects with an error matched by [p] ends the run at
    the first invocation, no timer being set (the run rejects with [e] when
    [e] is truthy, as error objects are). *)
Theorem toRetryOnError_classifies {S} (p : JsValue -> bool) (fn : Async S JsValue) :
  (forall s e s', fn s = (Rejected e, s') ->
     exists st, toRetryOnError p fn s = (Resolved st, s')
       /\ ((exists e', isTerminal st e') <-> p e = true)
       /\ (p e = true -> isTerminal st e)
       /\ (p e = false -> isRetryable st /\ error st = e))
  /\ (forall s v s', fn s = (Resolved v, s') ->
     exists st, toRetryOnError p fn s = (Resolved st, s') /\ isSuccess st v)
  /\ (forall e settings fuel (w : World S),
     alwaysRejects fn e -> p e = true -> -1 <= reqRetryCount settings ->
     exists w',
       retryFunctionUntil (Datatypes.S fuel) (toRetryOnError p fn) settings w =
         Some (if truthy e then Rejected e else Resolved JUndefined, w')
       /\ trace w' = trace w ++ [EvAttempt]).
Proof.
  split; [| split].
  - intros s e s' E. unfold toRetryOnError. rewrite E. eexists. split; [reflexivity |].
    unfold isTerminal, isRetryable. destruct (p e); simpl.
    + repeat split; eauto; discriminate.
    + repeat split; try discriminate. intros [e' H]. discriminate H.
  - intros s v s' E. unfold toRetryOnError. rewrite E. eexists. split; reflexivity.
  - intros e settings fuel w Hrej Hp Hk.
    destruct (Hrej (prim w)) as [s' E].
    eexists. split.
    + rewrite (retry_settles_at (toRetryOnError p fn) settings 0 (Datatypes.S fuel) w
                 (mkState false JUndefined e) s').
      * simpl. destruct (truthy e); reflexivity.
      * unfold withinBudget. simpl. lia.
      * exact I.
      * simpl. unfold toRetryOnError. rewrite E, Hp. reflexivity.
      * reflexivity.
      * lia.
    + reflexivity.
Qed.

Lemma toRetryOnError_classifies_witness :
  exists w',
    retryFunctionUntil 1
      (toRetryOnError stopOnError (Scenario.always (Rejected Scenario.notAcquiredError)))
      Scenario.threeTries (Scenario.start tt)
      = Some (Rejected Scenario.notAcquiredError, w')
    /\ trace w' = [EvAttempt].
Proof.
  exact (proj2 (proj2 (toRetryOnError_classifies stopOnError
                         (Scenario.always (Rejected Scenario.notAcquiredError))))
           Scenario.notAcquiredError Scenario.threeTries O (Scenario.start tt)
           (fun s => ex_intro _ s eq_refl) eq_refl ltac:(simpl; lia)).
Defined.

(** C7: [toRetryOnBoolean(s, fn)] turns a resolution with the sentinel [s]
    into a retryable outcome, a resolution with any other value into a
    success carrying it, and a rejection into a terminal outcome whatever
    the sentinel; after a rejection the run ends with that one invocation
    and no timer (it rejects with [e] when [e] is truthy, as error objects
    are). *)
Theorem toRetryOnBoolean_classifies {S} (sentinel : bool) (fn : Async S JsValue) :
  (forall s v s', fn s = (Resolved v, s') ->
     exists st, toRetryOnBoolean sentinel fn s = (Resolved st, s')
       /\ (v = JBool sentinel -> isRetryable st)
       /\ (v <> JBool sentinel -> isSuccess st v))
  /\ (forall s e s', fn s = (Rejected e, s') ->
     exists st, toRetryOnBoolean sentinel fn s = (Resolved st, s') /\ isTerminal st e)
  /\ (forall e s' settings fuel (w : World S),
     fn (prim w) = (Rejected e, s') -> -1 <= reqRetryCount settings ->
     exists w',
       retryFunctionUntil (Datatypes.S fuel) (toRetryOnBoolean sentinel fn) settings w =
         Some (if truthy e then Rejected e else Resolved JUndefined, w')
       /\ trace w' = trace w ++ [EvAttempt]).
Proof.
  split; [| split].
  - intros s v s' E. unfold toRetryOnBoolean. rewrite E. eexists. split; [reflexivity |].
    unfold isRetryable, isSuccess. simpl. split.
    + intros ->. apply strictEqBool_true. reflexivity.
    + intros Hne. destruct (strictEqBool v sentinel) eqn:Eb; [| reflexivity].
      apply strictEqBool_true in Eb. contradiction.
  - intros s e s' E. unfold toRetryOnBoolean. rewrite E. eexists. split; reflexivity.
  - intros e s' settings fuel w E Hk.
    eexists. split.
    + rewrite (retry_settles_at (toRetryOnBoolean sentinel fn) settings 0 (Datatypes.S fuel) w
                 (mkState false JUndefined e) s').
      * simpl. destruct (truthy e); reflexivity.
      * unfold withinBudget. simpl. lia.
      * exact I.
      * simpl. unfold toRetryOnBoolean. rewrite E. reflexivity.
      * reflexivity.
      * lia.
    + reflexivity.
Qed.

Lemma toRetryOnBoolean_classifies_witness :
  (exists st,
     toRetryOnBoolean false (Scenario.always (Resolved (JBool true))) tt = (Resolved st, tt)
     /\ isSuccess st (JBool true))
  /\ (exists st,
     toRetryOnBoolean false (Scenario.always (Resolved (JBool false))) tt = (Resolved st, tt)
     /\ isRetryable st)
  /\ (exists w',
     retryFunctionUntil 1 (toRetryOnBoolean false (Scenario.always (Rejected Scenario.ioError)))
       Scenario.threeTries (Scenario.start tt)
       = Some (Rejected Scenario.ioError, w')
     /\ trace w' = [EvAttempt]).
Proof.
  split; [| split].
  - destruct (proj1 (toRetryOnBoolean_classifies false
                       (Scenario.always (Resolved (JBool true)))) tt (JBool true) tt eq_refl)
      as (st & E & _ & Hs).
    exists st. split; [exact E | apply Hs; discriminate].
  - destruct (proj1 (toRetryOnBoolean_classifies false
                       (Scenario.always (Resolved (JBool false)))) tt (JBool false) tt eq_refl)
      as (st & E & Hr & _).
    exists st. split; [exact E | apply Hr; reflexivity].
  - exact (proj2 (proj2 (toRetryOnBoolean_classifies false
                           (Scenario.always (Rejected Scenario.ioError))))
             Scenario.ioError tt Scenario.threeTries O (Scenario.start tt)
             eq_refl ltac:(simpl; lia)).
Defined.

(** ** The locker *)

Lemma stopOnError_meansNotHeld (e : JsValue) : stopOnError e = meansNotHeld e.
Proof.
  unfold stopOnError, meansNotHeld, isCodedError, codeOf, hasProp, getProp.
  destruct e as [| | | | | props]; try reflexivity.
  simpl. destruct (assoc "code" props) as [c |]; simpl; [| reflexivity].
  destruct c as [| | | | s |]; simpl; try reflexivity.
  destruct (String.eqb_spec s "ENOTACQUIRED") as [-> | Hne].
  - reflexivity.
  - symmetry. apply bool_decide_eq_false. intros H. injection H as H. contradiction.
Qed.

Lemma meansNotHeld_truthy (e : JsValue) : meansNotHeld e = true -> truthy e = true.
Proof.
  unfold meansNotHeld, codeOf, getProp. destruct e; simpl; try discriminate. reflexivity.
Qed.


Section LockerProofs.
Context {S : Type}.
Variable lock : string -> Options -> Async S JsValue.
Variable unlock : string -> Options -> Async S JsValue.
Variable md5hex : string -> string.
Variable joinFilePath : string -> string -> string.
Variable createErrorMessage : JsValue -> string.
Variable self : Locker.
Variable identifier : ResourceIdentifier.

Local Abbreviation lockCall :=
  (lock (path identifier) (generateOptions md5hex joinFilePath self identifier defaultLockOptions)).
Local Abbreviation unlockCall :=
  (unlock (path identifier) (generateOptions md5hex joinFilePath self identifier defaultUnlockOptions)).



(** C8: when the unlock primitive rejects with the code that means not
    currently held, [release] fails at once: one attempt, no timer, and the
    error surfaced wraps the path and that not-acquired error. *)
Theorem release_not_acquired_is_terminal (fuel : nat) (w : World S) (e : JsValue) (s' : S) :
  -1 <= reqRetryCount (attemptSettings self) ->
  unlockCall (prim w) = (Rejected e, s') ->
  meansNotHeld e = true ->
  exists w',
    release unlock md5hex joinFilePath createErrorMessage (Datatypes.S fuel) self identifier w =
      Some (Rejected (InternalServerError
              ("Error trying to release lock for " +:+ path identifier +:+ ".  " +:+
               createErrorMessage e)), w')
    /\ trace w' = trace w ++ [EvAttempt]
    /\ prim w' = s'.
Proof.
  intros Hk E Hcode.
  eexists. split; [| split].
  - unfold release, retryUntilError.
    rewrite (retry_settles_at (toRetryOnError stopOnError unlockCall) (attemptSettings self)
               0 (Datatypes.S fuel) w (mkState false JUndefined e) s').
    + simpl. rewrite (meansNotHeld_truthy e Hcode). reflexivity.
    + unfold withinBudget. simpl. lia.
    + exact I.
    + simpl. unfold toRetryOnError. rewrite E, stopOnError_meansNotHeld, Hcode. reflexivity.
    + reflexivity.
    + lia.
  - reflexivity.
  - reflexivity.
Qed.

End LockerProofs.





Lemma release_not_acquired_is_terminal_witness :
  exists w',
    release (fun _ _ => Scenario.always (Rejected Scenario.notAcquiredError))
      Scenario.sameName Scenario.joinWithSlash Scenario.messageOf
      1 (Scenario.locker 2) Scenario.alice (Scenario.start tt) =
      Some (Rejected (InternalServerError
        "Error trying to release lock for /alice/foo.ttl.  Lock is not acquired/owned by you"),
        w')
    /\ trace w' = [EvAttempt]
    /\ prim w' = tt.
Proof.
  exact (release_not_acquired_is_terminal
           (fun _ _ => Scenario.always (Rejected Scenario.notAcquiredError))
           Scenario.sameName Scenario.joinWithSlash Scenario.messageOf
           (Scenario.locker 2) Scenario.alice O (Scenario.start tt)
           Scenario.notAcquiredError tt
           ltac:(simpl; lia) eq_refl eq_refl).
Defined.

(** ** Cleaning the lock folder *)

Section Finalize.
Implicit Types (fs : gmap string Node) (d p q n : string).

Lemma append_length (a b : string) :
  String.length (a +:+ b) = (String.length a + String.length b)%nat.
Proof.
  induction a as [| c a IH]; [reflexivity |].
  change (String c a +:+ b) with (String c (a +:+ b)).
  change (String.length (String c (a +:+ b))) with (Datatypes.S (String.length (a +:+ b))).
  rewrite IH. reflexivity.
Qed.

Lemma child_neq_parent d n : d +:+ "/" +:+ n ≠ d.
Proof.
  intros H. apply (f_equal String.length) in H.
  rewrite !append_length in H. simpl in H. lia.
Qed.

Lemma child_inj d n m : d +:+ "/" +:+ n = d +:+ "/" +:+ m -> n = m.
Proof.
  intros H. apply (inj (String.app d)) in H. apply (inj (String.app "/")) in H. exact H.
Qed.

Lemma rmdir_empty p fs :
  fs !! p = Some (NDir []) ->
  rmdir p fs = (Resolved tt, map_imap (fun d node => Some (unlink p d node)) (delete p fs)).
Proof. intros E. unfold rmdir. rewrite E. reflexivity. Qed.

Lemma lookup_after_rmdir p q fs :
  map_imap (fun d node => Some (unlink p d node)) (delete p fs) !! q =
  if decide (p = q) then None else unlink p q <$> fs !! q.
Proof.
  rewrite map_lookup_imap, lookup_delete.
  destruct (decide (p = q)); [reflexivity |]. destruct (fs !! q); reflexivity.
Qed.

(** The loop of [finalize] over entries that are all empty directories. *)
Lemma rmdirEach_removes d (dirs : list string) :
  forall fs (L : list string),
  NoDup dirs ->
  fs !! d = Some (NDir L) ->
  (forall n, n ∈ dirs -> fs !! (d +:+ "/" +:+ n) = Some (NDir [])) ->
  exists fs' L',
    rmdirEach d dirs fs = (Resolved tt, fs')
    /\ fs' !! d = Some (NDir L')
    /\ (forall n, n ∈ L' -> n ∈ L /\ n ∉ dirs)
    /\ (forall n, n ∈ dirs -> fs' !! (d +:+ "/" +:+ n) = None)
    /\ (forall q, q ≠ d -> (forall n, n ∈ dirs -> q ≠ d +:+ "/" +:+ n) ->
          is_Some (fs' !! q) <-> is_Some (fs !! q)).
Proof.
  induction dirs as [| x rest IH]; intros fs L Hnd Hd Hall.
  - exists fs, L. repeat split; try done.
    + intros Hn. apply elem_of_nil in Hn. exact Hn.
    + intros n Hn. apply elem_of_nil in Hn. contradiction.
  - apply NoDup_cons in Hnd as [Hx Hnd].
    pose proof (Hall x ltac:(left)) as Ex.
    simpl. rewrite (rmdir_empty _ _ Ex).
    set (fs1 := map_imap (fun d0 node => Some (unlink (d +:+ "/" +:+ x) d0 node))
                  (delete (d +:+ "/" +:+ x) fs)).
    destruct (IH fs1 (filter (fun n => d +:+ "/" +:+ n ≠ d +:+ "/" +:+ x) L) Hnd)
      as (fs' & L' & Erun & Hd' & HL' & Hgone & Hrest).
    + unfold fs1. rewrite lookup_after_rmdir.
      destruct (decide (d +:+ "/" +:+ x = d)) as [Hbad | _];
        [destruct (child_neq_parent _ _ Hbad) |].
      rewrite Hd. reflexivity.
    + intros n Hn. unfold fs1. rewrite lookup_after_rmdir.
      destruct (decide (d +:+ "/" +:+ x = d +:+ "/" +:+ n)) as [Heq | _].
      * apply child_inj in Heq. subst n. contradiction.
      * rewrite (Hall n ltac:(right; exact Hn)). reflexivity.
    + exists fs', L'. split; [exact Erun |]. split; [exact Hd' |].
      split; [| split].
      * intros n Hn. destruct (HL' n Hn) as [HnL Hnrest].
        apply list_elem_of_filter in HnL as [Hne HnL].
        split; [exact HnL |].
        intros Hc. apply elem_of_cons in Hc as [-> | Hc]; [apply Hne; reflexivity | contradiction].
      * intros n Hn. apply elem_of_cons in Hn as [-> | Hn]; [| apply Hgone, Hn].
        apply eq_None_not_Some. intros Hsome.
        apply Hrest in Hsome.
        -- unfold fs1 in Hsome. rewrite lookup_after_rmdir in Hsome.
           destruct (decide (d +:+ "/" +:+ x = d +:+ "/" +:+ x)); [| contradiction].
           destruct Hsome as [? Hsome]. discriminate Hsome.
        -- apply child_neq_parent.
        -- intros n Hn Heq. apply child_inj in Heq. subst n. contradiction.
      * intros q Hq Hnot. rewrite Hrest.
        -- unfold fs1. rewrite lookup_after_rmdir.
           destruct (decide (d +:+ "/" +:+ x = q)) as [<- | _].
           ++ destruct (Hnot x ltac:(left)). reflexivity.
           ++ apply fmap_is_Some.
        -- exact Hq.
        -- intros n Hn. apply Hnot. right. exact Hn.
Qed.

End Finalize.

Lemma pathExists_iff (p : string) (fs fs' : gmap string Node) :
  (is_Some (fs' !! p) <-> is_Some (fs !! p)) -> pathExists p fs' = pathExists p fs.
Proof. intros H. unfold pathExists. apply bool_decide_ext. exact H. Qed.

(** C9 (as amended): [finalize] succeeds and changes nothing when the lock
    folder is absent; it succeeds and removes the folder when the folder is
    empty; and when every entry of the folder is an empty directory (the
    form in which the primitive makes a lock) it removes every entry and
    then the folder itself, leaving the other paths in place. *)
Theorem finalize_removes_lock_entries (self : Locker) (fs : gmap string Node)
    (dirs : list string) :
  (pathExists (lockFolder self) fs = false -> finalize self fs = (Resolved tt, fs))
  /\ (fs !! lockFolder self = Some (NDir []) ->
      exists fs', finalize self fs = (Resolved tt, fs')
        /\ pathExists (lockFolder self) fs' = false)
  /\ (fs !! lockFolder self = Some (NDir dirs) ->
      NoDup dirs ->
      (forall n, n ∈ dirs -> fs !! (lockFolder self +:+ "/" +:+ n) = Some (NDir [])) ->
      exists fs', finalize self fs = (Resolved tt, fs')
        /\ pathExists (lockFolder self) fs' = false
        /\ (forall n, n ∈ dirs -> pathExists (lockFolder self +:+ "/" +:+ n) fs' = false)
        /\ (forall q, q ≠ lockFolder self ->
              (forall n, n ∈ dirs -> q ≠ lockFolder self +:+ "/" +:+ n) ->
              pathExists q fs' = pathExists q fs)).
Proof.
  assert (Hmain : forall ds, fs !! lockFolder self = Some (NDir ds) ->
      NoDup ds ->
      (forall n, n ∈ ds -> fs !! (lockFolder self +:+ "/" +:+ n) = Some (NDir [])) ->
      exists fs', finalize self fs = (Resolved tt, fs')
        /\ pathExists (lockFolder self) fs' = false
        /\ (forall n, n ∈ ds -> pathExists (lockFolder self +:+ "/" +:+ n) fs' = false)
        /\ (forall q, q ≠ lockFolder self ->
              (forall n, n ∈ ds -> q ≠ lockFolder self +:+ "/" +:+ n) ->
              pathExists q fs' = pathExists q fs)).
  { intros ds Hd Hnd Hall.
    destruct (rmdirEach_removes (lockFolder self) ds fs ds Hnd Hd Hall)
      as (fs1 & L' & Erun & Hd1 & HL' & Hgone & Hrest).
    assert (L' = []) as ->.
    { destruct L' as [| n L']; [reflexivity |].
      destruct (HL' n ltac:(left)) as [Hin Hout]. contradiction. }
    eexists. split; [| split; [| split]].
    - unfold finalize, pathExists, readdir. rewrite Hd.
      rewrite bool_decide_eq_true_2 by (eexists; reflexivity).
      rewrite Erun. apply rmdir_empty, Hd1.
    - unfold pathExists. rewrite lookup_after_rmdir.
      destruct (decide (lockFolder self = lockFolder self)); [| contradiction].
      apply bool_decide_eq_false. intros [? H]. discriminate H.
    - intros n Hn. unfold pathExists. rewrite lookup_after_rmdir, (Hgone n Hn).
      apply bool_decide_eq_false.
      destruct (decide (lockFolder self = lockFolder self +:+ "/" +:+ n));
        intros [? H]; discriminate H.
    - intros q Hq Hnot. apply pathExists_iff. rewrite lookup_after_rmdir.
      destruct (decide (lockFolder self = q)) as [<- | _]; [contradiction |].
      rewrite fmap_is_Some. apply Hrest; assumption. }
  split; [| split].
  - intros Habsent. unfold finalize. rewrite Habsent. reflexivity.
  - intros Hd. destruct (Hmain [] Hd) as (fs' & E & Hgone & _).
    + constructor.
    + intros n Hn. apply elem_of_nil in Hn. contradiction.
    + exists fs'. split; assumption.
  - apply Hmain.
Qed.

Lemma finalize_removes_lock_entries_witness :
  exists fs',
    finalize (Scenario.locker 2) Scenario.twoLocks = (Resolved tt, fs')
    /\ pathExists "/data/.internal/locks" fs' = false
    /\ pathExists "/data/.internal/locks/0a1b" fs' = false
    /\ pathExists "/data/.internal/locks/2c3d" fs' = false
    /\ pathExists "/data/alice.ttl" fs' = true.
Proof.
  destruct (proj2 (proj2 (finalize_removes_lock_entries (Scenario.locker 2)
                            Scenario.twoLocks ["0a1b"; "2c3d"])))
    as (fs' & E & Hdir & Hentries & Hother).
  - reflexivity.
  - apply NoDup_cons. split; [| apply NoDup_cons; split; [| constructor]].
    + intros H. apply elem_of_cons in H as [H | H]; [discriminate H |].
      apply elem_of_nil in H. exact H.
    + intros H. apply elem_of_nil in H. exact H.
  - intros n Hn.
    apply elem_of_cons in Hn as [-> | Hn]; [reflexivity |].
    apply elem_of_cons in Hn as [-> | Hn]; [reflexivity |].
    apply elem_of_nil in Hn. contradiction.
  - exists fs'. split; [exact E |]. split; [exact Hdir |].
    split; [apply (Hentries "0a1b"); left |].
    split; [apply (Hentries "2c3d"); right; left |].
    rewrite (Hother "/data/alice.ttl").
    + reflexivity.
    + discriminate.
    + intros n Hn.
      apply elem_of_cons in Hn as [-> | Hn]; [discriminate |].
      apply elem_of_cons in Hn as [-> | Hn]; [discriminate |].
      apply elem_of_nil in Hn. contradiction.
Defined.

(** C9 (as stated) fails: with a regular file among the entries [finalize]
    is rejected with ENOTDIR once it reaches the file, and with an entry
    that is a directory with content it is rejected with ENOTEMPTY; the
    lock folder and the entry stay on disk. *)
Lemma finalize_fails_on_stray_entries :
  fst (finalize (Scenario.locker 2) Scenario.strayFile) = Rejected (fsError "ENOTDIR")
  /\ pathExists "/data/.internal/locks"
       (snd (finalize (Scenario.locker 2) Scenario.strayFile)) = true
  /\ pathExists "/data/.internal/locks/notes.txt"
       (snd (finalize (Scenario.locker 2) Scenario.strayFile)) = true
  /\ pathExists "/data/.internal/locks/0a1b"
       (snd (finalize (Scenario.locker 2) Scenario.strayFile)) = false
  /\ fst (finalize (Scenario.locker 2) Scenario.fullEntry) = Rejected (fsError "ENOTEMPTY")
  /\ pathExists "/data/.internal/locks"
       (snd (finalize (Scenario.locker 2) Scenario.fullEntry)) = true
  /\ pathExists "/data/.internal/locks/0a1b"
       (snd (finalize (Scenario.locker 2) Scenario.fullEntry)) = true.
Proof. repeat split; vm_compute; reflexivity. Qed.

(** * Further properties of the retry engine *)

(** X2: after [n] retries, an attempt that ends in a terminal outcome with a
    truthy error makes the run reject with that very error, unwrapped,
    after [n + 1] invocations and [n] timers. *)
Theorem retry_rethrows_terminal {S} (fn : Async S LockRequestState)
    (settings : RequiredAttemptSettings) (n fuel : nat) (w : World S)
    (st : LockRequestState) (s' : S) :
  withinBudget (reqRetryCount settings) (Datatypes.S n) ->
  allRetryable fn n (prim w) ->
  fn (prim (afterRetries fn (reqRetryDelay settings) (reqRetryJitter settings) n w))
    = (Resolved st, s') ->
  shouldRetry st = false ->
  truthy (error st) = true ->
  (n < fuel)%nat ->
  exists w',
    retryFunctionUntil fuel fn settings w = Some (Rejected (error st), w')
    /\ prim w' = s'
    /\ attemptCount (trace w') = (attemptCount (trace w) + n + 1)%nat
    /\ timeoutCount (trace w') = (timeoutCount (trace w) + n)%nat.
Proof.
  intros Hb Hall E Hr Ht Hfuel. eexists. split; [| split; [| split]].
  - rewrite (retry_settles_at fn settings n fuel w st s' Hb Hall E Hr Hfuel), Ht. reflexivity.
  - reflexivity.
  - simpl. rewrite attemptCount_attempt, afterRetries_attempts. lia.
  - simpl. rewrite timeoutCount_attempt, afterRetries_timeouts. lia.
Qed.

Lemma retry_rethrows_terminal_witness :
  exists w',
    retryFunctionUntil 2 (toRetryOnError stopOnError Scenario.scripted) Scenario.threeTries
      (Scenario.start [Rejected Scenario.lockedError; Rejected Scenario.notAcquiredError])
      = Some (Rejected Scenario.notAcquiredError, w')
    /\ prim w' = []
    /\ attemptCount (trace w') = 2%nat
    /\ timeoutCount (trace w') = 1%nat.
Proof.
  apply (retry_rethrows_terminal (toRetryOnError stopOnError Scenario.scripted)
           Scenario.threeTries 1 2
           (Scenario.start [Rejected Scenario.lockedError; Rejected Scenario.notAcquiredError])
           (mkState false JUndefined Scenario.notAcquiredError) []).
  - right. simpl. lia.
  - split; [reflexivity | exact I].
  - reflexivity.
  - reflexivity.
  - reflexivity.
  - lia.
Defined.

(** X3: when the promise of the attempt itself rejects, after [n] retries,
    the run rejects with that error whatever it is (also a falsy one), right
    after that invocation. *)
Theorem retry_propagates_rejection {S} (fn : Async S LockRequestState)
    (settings : RequiredAttemptSettings) (n fuel : nat) (w : World S)
    (e : JsValue) (s' : S) :
  withinBudget (reqRetryCount settings) (Datatypes.S n) ->
  allRetryable fn n (prim w) ->
  fn (prim (afterRetries fn (reqRetryDelay settings) (reqRetryJitter settings) n w))
    = (Rejected e, s') ->
  (n < fuel)%nat ->
  exists w',
    retryFunctionUntil fuel fn settings w = Some (Rejected e, w')
    /\ prim w' = s'
    /\ attemptCount (trace w') = (attemptCount (trace w) + n + 1)%nat
    /\ timeoutCount (trace w') = (timeoutCount (trace w) + n)%nat.
Proof.
  intros Hb Hall E Hfuel.
  set (w1 := afterRetries fn (reqRetryDelay settings) (reqRetryJitter settings) n w) in *.
  exists (withPrim (logAttempt w1) s'). split; [| split; [| split]].
  - unfold retryFunctionUntil.
    replace fuel with (n + Datatypes.S (fuel - n - 1))%nat by lia.
    pose proof (withinBudget_triesLe _ _ Hb) as Hle.
    destruct (retryLoop_rounds fn (reqRetryDelay settings) (reqRetryJitter settings)
                (maxTriesOf (reqRetryCount settings)) n (Datatypes.S (fuel - n - 1))
                (mkState true JUndefined JUndefined) 1 w) as (st' & Hs' & E').
    + reflexivity.
    + destruct n; [left; reflexivity | right].
      apply triesLe_earlier with (b := 1 + Z.of_nat (Datatypes.S n)); [lia | exact Hle].
    + exact Hall.
    + rewrite E'. simpl. rewrite Hs', Hle. simpl.
      fold w1. rewrite (invoke_eq fn w1 _ _ E). reflexivity.
  - reflexivity.
  - simpl. unfold w1. rewrite attemptCount_attempt, afterRetries_attempts. lia.
  - simpl. unfold w1. rewrite timeoutCount_attempt, afterRetries_timeouts. lia.
Qed.

Lemma retry_propagates_rejection_witness :
  exists w',
    retryFunctionUntil 1 (fun s : unit => (Rejected JUndefined, s)) Scenario.threeTries
      (Scenario.start tt) = Some (Rejected JUndefined, w')
    /\ prim w' = tt
    /\ attemptCount (trace w') = 1%nat
    /\ timeoutCount (trace w') = 0%nat.
Proof.
  apply (retry_propagates_rejection (fun s : unit => (Rejected JUndefined, s))
           Scenario.threeTries 0 1 (Scenario.start tt) JUndefined tt).
  - right. simpl. lia.
  - exact I.
  - reflexivity.
  - lia.
Defined.

(** Without a bound on the tries, a loop whose attempt always asks for a
    retry runs through any amount of fuel. *)
Lemma retryLoop_unbounded_none {S} (fn : Async S LockRequestState) (d j : Z)
    (fuel : nat) (state : LockRequestState) (tries : Z) (w : World S) :
  alwaysRetryable fn -> shouldRetry state = true ->
  retryLoop fuel fn d j Infinity state tries w = None.
Proof.
  intros Hfn. revert state tries w.
  induction fuel as [| fuel IH]; intros state tries w Hs.
  - simpl. rewrite Hs. reflexivity.
  - destruct (Hfn (prim w)) as (st & s' & E & Hr).
    rewrite (retryLoop_round fn _ _ Infinity fuel state st tries w s' Hs eq_refl E Hr).
    apply IH. exact Hr.
Qed.

(** X4: with [retryCount = -1] the budget is never used up: against an
    attempt that asks for a retry on every invocation the run does not
    settle, whatever the number of rounds it is given. *)
Theorem retry_unbounded_never_settles {S} (fn : Async S LockRequestState)
    (settings : RequiredAttemptSettings) (fuel : nat) (w : World S) :
  reqRetryCount settings = -1 ->
  alwaysRetryable fn ->
  retryFunctionUntil fuel fn settings w = None.
Proof.
  intros Hk Hfn. unfold retryFunctionUntil. rewrite Hk.
  change (maxTriesOf (-1)) with Infinity.
  apply retryLoop_unbounded_none; [exact Hfn | reflexivity].
Qed.

Lemma retry_unbounded_never_settles_witness :
  retryFunctionUntil 50
    (toRetryOnError stopOnError (Scenario.always (Rejected Scenario.lockedError)))
    attemptDefaults (Scenario.start tt) = None.
Proof.
  apply (retry_unbounded_never_settles
           (toRetryOnError stopOnError (Scenario.always (Rejected Scenario.lockedError)))
           attemptDefaults 50 (Scenario.start tt)).
  - reflexivity.
  - intros s. eexists. eexists. split; reflexivity.
Defined.

(** X5: with a [retryCount] below [-1] the loop is never entered: the run
    rejects with the budget-exhausted error at once, the attempt is not
    invoked and no timer is set. *)
Theorem retry_negative_budget_no_attempt {S} (fn : Async S LockRequestState)
    (settings : RequiredAttemptSettings) (fuel : nat) (w : World S) :
  reqRetryCount settings < -1 ->
  retryFunctionUntil fuel fn settings w =
    Some (Rejected (InternalServerError
                      (budgetMessage (Finite (reqRetryCount settings + 1)))), w).
Proof.
  intros Hk. unfold retryFunctionUntil.
  rewrite maxTriesOf_finite by lia.
  rewrite retryLoop_exit.
  - unfold triesGt. destruct (Z.ltb_spec (reqRetryCount settings + 1) 1); [reflexivity | lia].
  - unfold triesLe. simpl. apply Z.leb_gt. lia.
Qed.

Lemma retry_negative_budget_no_attempt_witness :
  retryFunctionUntil 0 (Scenario.succeedsWith (JBool true)) (mkRequired (-2) 50 30)
    (Scenario.start tt) =
    Some (Rejected (InternalServerError
            "The operation did not succeed after the set maximum of tries (-1)."),
          Scenario.start tt).
Proof.
  exact (retry_negative_budget_no_attempt (Scenario.succeedsWith (JBool true))
           (mkRequired (-2) 50 30) 0 (Scenario.start tt) ltac:(simpl; lia)).
Defined.

Section RunShape.
Context {S : Type}.
Variable fn : Async S LockRequestState.




(** The attempts of a run never exceed the budget. *)
Lemma retryLoop_attempts_bounded (d j M : Z) (fuel : nat) (state : LockRequestState)
    (tries : Z) (w : World S) (r : Settled JsValue) (w' : World S) :
  retryLoop fuel fn d j (Finite M) state tries w = Some (r, w') ->
  (attemptCount (trace w') <= attemptCount (trace w) + Z.to_nat (M + 1 - tries))%nat.
Proof.
  apply (retryLoop_inv fn d j (Finite M)
           (fun tries w _ w' =>
              (attemptCount (trace w') <= attemptCount (trace w) + Z.to_nat (M + 1 - tries))%nat)).
  - intros; lia.
  - intros t w0 e s' Hle _. simpl in *. rewrite attemptCount_attempt.
    apply Z.leb_le in Hle. lia.
  - intros t w0 st s' Hle _ _. simpl in *. rewrite attemptCount_attempt.
    apply Z.leb_le in Hle. lia.
  - intros t w0 st s' r0 w0' Hle _ _ H. simpl in Hle. apply Z.leb_le in Hle.
    rewrite setJitterTimeout_trace in H. simpl in H.
    rewrite attemptCount_timeout, attemptCount_attempt in H. lia.
Qed.


End RunShape.

(** X6: with a [retryCount] other than [-1], no run invokes the attempt more
    than [retryCount + 1] times, whatever the attempt does. *)
Theorem retry_never_exceeds_budget {S} (fn : Async S LockRequestState)
    (settings : RequiredAttemptSettings) (fuel : nat) (w : World S)
    (r : Settled JsValue) (w' : World S) :
  reqRetryCount settings <> -1 ->
  retryFunctionUntil fuel fn settings w = Some (r, w') ->
  (attemptCount (trace w') <=
     attemptCount (trace w) + Z.to_nat (reqRetryCount settings + 1))%nat.
Proof.
  intros Hk E. unfold retryFunctionUntil in E.
  rewrite maxTriesOf_finite in E by exact Hk.
  apply retryLoop_attempts_bounded in E.
  replace (reqRetryCount settings + 1 + 1 - 1) with (reqRetryCount settings + 1) in E by lia.
  exact E.
Qed.

Lemma retry_never_exceeds_budget_witness :
  (attemptCount
     [EvAttempt; EvTimeout 51; EvAttempt; EvTimeout 51; EvAttempt; EvTimeout 51]
   <= attemptCount [] + Z.to_nat (2 + 1))%nat.
Proof.
  exact (retry_never_exceeds_budget
           (toRetryOnError stopOnError (Scenario.always (Rejected Scenario.lockedError)))
           Scenario.threeTries 7 (Scenario.start tt)
           (Rejected (InternalServerError
              "The operation did not succeed after the set maximum of tries (3)."))
           (mkWorld tt (fun _ => 0%Q) 3
              [EvAttempt; EvTimeout 51; EvAttempt; EvTimeout 51; EvAttempt; EvTimeout 51])
           ltac:(discriminate) eq_refl).
Defined.



(** Every run of [retryFunctionUntil] that settles: [n] invocations of the
    attempt ask for a retry, and then either the budget is used up or one
    more invocation rejects or does not ask for a retry. *)
Lemma retryFunctionUntil_run {S} (fn : Async S LockRequestState)
    (settings : RequiredAttemptSettings) (fuel : nat) (w : World S)
    (r : Settled JsValue) (w' : World S) :
  retryFunctionUntil fuel fn settings w = Some (r, w') ->
  exists n,
    allRetryable fn n (prim w)
    /\ ((r = Rejected (budgetError (reqRetryCount settings))
         /\ Z.of_nat n = Z.max 0 (reqRetryCount settings + 1)
         /\ prim w' = stateAfter fn n (prim w))
        \/ (withinBudget (reqRetryCount settings) (Datatypes.S n)
            /\ exists x,
                 fn (stateAfter fn n (prim w)) = (x, prim w')
                 /\ match x with
                    | Rejected e => r = Rejected e
                    | Resolved st =>
                        shouldRetry st = false
                        /\ r = (if truthy (error st) then Rejected (error st)
                                else if truthy (response st) then Resolved (response st)
                                else Resolved JUndefined)
                    end)).
Proof.
  intros E. unfold retryFunctionUntil in E.
  apply retryLoop_run in E; [| reflexivity].
  destruct E as (n & Hall & Hb & Hcase). exists n. split; [exact Hall |].
  destruct Hcase as [(G & -> & ->) | (Hle & x & s' & F & -> & Hx)].
  - left. split; [reflexivity |]. split; [| apply afterRetries_prim].
    unfold maxTriesOf in G, Hb.
    destruct (Z.eqb_spec (reqRetryCount settings) (-1)) as [Hk | Hk]; [discriminate G |].
    simpl in G. apply Z.ltb_lt in G.
    destruct Hb as [-> | Hb]; [simpl in *; lia |].
    simpl in Hb. apply Z.leb_le in Hb. lia.
  - right. split.
    + unfold withinBudget. unfold maxTriesOf in Hle.
      destruct (Z.eqb_spec (reqRetryCount settings) (-1)) as [Hk | Hk]; [left; exact Hk | right].
      simpl in Hle. apply Z.leb_le in Hle. lia.
    + exists x. rewrite afterRetries_prim in F. split; [exact F | exact Hx].
Qed.

Section AdapterResults.
Context {S : Type}.
Variable call : Async S JsValue.

Lemma toRetryOnError_state (p : JsValue -> bool) (s : S) :
  snd (toRetryOnError p call s) = snd (call s).
Proof. unfold toRetryOnError. destruct (call s) as [[v | e] s']; reflexivity. Qed.

Lemma toRetryOnBoolean_state (b : bool) (s : S) :
  snd (toRetryOnBoolean b call s) = snd (call s).
Proof. unfold toRetryOnBoolean. destruct (call s) as [[v | e] s']; reflexivity. Qed.

Lemma stateAfter_toRetryOnError (p : JsValue -> bool) (n : nat) (s : S) :
  stateAfter (toRetryOnError p call) n s = primAfter call n s.
Proof.
  revert s. induction n as [| n IH]; intros s; simpl; [reflexivity |].
  rewrite IH, toRetryOnError_state. reflexivity.
Qed.

Lemma stateAfter_toRetryOnBoolean (b : bool) (n : nat) (s : S) :
  stateAfter (toRetryOnBoolean b call) n s = primAfter call n s.
Proof.
  revert s. induction n as [| n IH]; intros s; simpl; [reflexivity |].
  rewrite IH, toRetryOnBoolean_state. reflexivity.
Qed.

(** The attempts of [toRetryOnError] that ask for a retry are the
    rejections that the stop predicate does not match. *)
Lemma allRetryable_rejectsUnmatched (p : JsValue -> bool) (n : nat) (s : S) :
  allRetryable (toRetryOnError p call) n s -> rejectsUnmatched p call n s.
Proof.
  revert s. induction n as [| n IH]; intros s H; simpl in *; [exact I |].
  unfold toRetryOnError in H at 1.
  destruct (call s) as [[v | e] s']; destruct H as [Hr H].
  - discriminate Hr.
  - unfold isRetryable in Hr. simpl in Hr. split; [| apply IH, H].
    destruct (p e); [discriminate Hr | reflexivity].
Qed.

(** The attempts of [toRetryOnBoolean] that ask for a retry are the
    resolutions with the sentinel. *)
Lemma allRetryable_resolvesSentinel (b : bool) (n : nat) (s : S) :
  allRetryable (toRetryOnBoolean b call) n s -> resolvesSentinel b call n s.
Proof.
  revert s. induction n as [| n IH]; intros s H; simpl in *; [exact I |].
  unfold toRetryOnBoolean in H at 1.
  destruct (call s) as [[v | e] s']; destruct H as [Hr H].
  - unfold isRetryable in Hr. simpl in Hr. split; [| apply IH, H].
    apply strictEqBool_true, Hr.
  - discriminate Hr.
Qed.

(** How a run over [toRetryOnError(p, call)] ends: after [n] rejections
    that [p] does not match, the budget is used up, or the next invocation
    of the raw call settles the run. *)
Lemma retry_on_error_run (p : JsValue -> bool) (settings : RequiredAttemptSettings)
    (fuel : nat) (w : World S) (r : Settled JsValue) (w' : World S) :
  retryFunctionUntil fuel (toRetryOnError p call) settings w = Some (r, w') ->
  exists n,
    rejectsUnmatched p call n (prim w)
    /\ match r with
       | Rejected e =>
           (e = budgetError (reqRetryCount settings)
            /\ Z.of_nat n = Z.max 0 (reqRetryCount settings + 1)
            /\ prim w' = primAfter call n (prim w))
           \/ (p e = true /\ truthy e = true
               /\ withinBudget (reqRetryCount settings) (Datatypes.S n)
               /\ call (primAfter call n (prim w)) = (Rejected e, prim w'))
       | Resolved v =>
           (v = JUndefined
            /\ withinBudget (reqRetryCount settings) (Datatypes.S n)
            /\ exists x,
                 call (primAfter call n (prim w)) = (x, prim w')
                 /\ match x with
                    | Resolved v0 => truthy v0 = false
                    | Rejected e0 => p e0 = true /\ truthy e0 = false
                    end)
           \/ (truthy v = true
               /\ withinBudget (reqRetryCount settings) (Datatypes.S n)
               /\ call (primAfter call n (prim w)) = (Resolved v, prim w'))
       end.
Proof.
  intros E. apply retryFunctionUntil_run in E.
  destruct E as (n & Hall & Hcase). exists n.
  split; [apply allRetryable_rejectsUnmatched, Hall |].
  rewrite stateAfter_toRetryOnError in Hcase.
  destruct Hcase as [(-> & Hn & Hp) | (Hb & x & F & Hx)].
  - left. split; [reflexivity |]. split; [exact Hn | exact Hp].
  - unfold toRetryOnError in F.
    destruct (call (primAfter call n (prim w))) as [[v0 | e0] s0] eqn:Fc;
      injection F as <- <-; destruct Hx as [Hr ->]; simpl in *.
    + destruct (truthy v0) eqn:Tv.
      * right. split; [exact Tv |]. split; [exact Hb | reflexivity].
      * left. split; [reflexivity |]. split; [exact Hb |].
        exists (Resolved v0). split; [reflexivity | exact Tv].
    + assert (Hp : p e0 = true) by (destruct (p e0); [reflexivity | discriminate Hr]).
      destruct (truthy e0) eqn:Te.
      * right. split; [exact Hp |]. split; [exact Te |]. split; [exact Hb | reflexivity].
      * left. split; [reflexivity |]. split; [exact Hb |].
        exists (Rejected e0). split; [reflexivity |]. split; [exact Hp | exact Te].
Qed.

End AdapterResults.

(** X8: a run over [toRetryOnError(p, fn)] that settles has seen [n]
    rejections of [fn] that [p] does not match, one after the other from
    the state the run started in, and then ends in one of these ways. It
    rejects with the budget-exhausted error, [n] being the budget; or the
    next call of [fn] rejects with a truthy error that [p] matches, and the
    run rejects with that error (an error that [p] does not match never
    surfaces); or the next call resolves with a truthy value, which the run
    returns; or the next call settles with a falsy value or a falsy error
    that [p] matches, and the run returns [undefined]. The primitive is
    left in the state after that last call. *)
Theorem retry_on_error_result {S} (p : JsValue -> bool) (fn : Async S JsValue)
    (settings : RequiredAttemptSettings) (fuel : nat) (w : World S)
    (r : Settled JsValue) (w' : World S) :
  retryFunctionUntil fuel (toRetryOnError p fn) settings w = Some (r, w') ->
  exists n,
    rejectsUnmatched p fn n (prim w)
    /\ match r with
       | Rejected e =>
           (e = budgetError (reqRetryCount settings)
            /\ Z.of_nat n = Z.max 0 (reqRetryCount settings + 1)
            /\ prim w' = primAfter fn n (prim w))
           \/ (p e = true /\ truthy e = true
               /\ withinBudget (reqRetryCount settings) (Datatypes.S n)
               /\ fn (primAfter fn n (prim w)) = (Rejected e, prim w'))
       | Resolved v =>
           (v = JUndefined
            /\ withinBudget (reqRetryCount settings) (Datatypes.S n)
            /\ exists x,
                 fn (primAfter fn n (prim w)) = (x, prim w')
                 /\ match x with
                    | Resolved v0 => truthy v0 = false
                    | Rejected e0 => p e0 = true /\ truthy e0 = false
                    end)
           \/ (truthy v = true
               /\ withinBudget (reqRetryCount settings) (Datatypes.S n)
               /\ fn (primAfter fn n (prim w)) = (Resolved v, prim w'))
       end.
Proof. apply retry_on_error_run. Qed.

Lemma retry_on_error_result_witness :
  exists n,
    rejectsUnmatched stopOnError Scenario.scripted n
      [Rejected Scenario.lockedError; Rejected Scenario.notAcquiredError; Resolved JNull]
    /\ ((Scenario.notAcquiredError = budgetError 2
         /\ Z.of_nat n = Z.max 0 (2 + 1)
         /\ [Resolved JNull] =
            primAfter Scenario.scripted n
              [Rejected Scenario.lockedError; Rejected Scenario.notAcquiredError;
               Resolved JNull])
        \/ (stopOnError Scenario.notAcquiredError = true
            /\ truthy Scenario.notAcquiredError = true
            /\ withinBudget 2 (Datatypes.S n)
            /\ Scenario.scripted
                 (primAfter Scenario.scripted n
                    [Rejected Scenario.lockedError; Rejected Scenario.notAcquiredError;
                     Resolved JNull])
               = (Rejected Scenario.notAcquiredError, [Resolved JNull]))).
Proof.
  exact (retry_on_error_result stopOnError Scenario.scripted Scenario.threeTries 2
           (Scenario.start [Rejected Scenario.lockedError; Rejected Scenario.notAcquiredError;
                            Resolved JNull])
           (Rejected Scenario.notAcquiredError)
           (mkWorld [Resolved JNull] (fun _ => 0%Q) 1 [EvAttempt; EvTimeout 51; EvAttempt])
           eq_refl).
Defined.

(** X9: a run over [toRetryOnBoolean(b, fn)] that settles has seen [n]
    resolutions of [fn] with [b], one after the other from the state the
    run started in, and then ends in one of these ways. It rejects with the
    budget-exhausted error, [n] being the budget; or the next call of [fn]
    rejects with a truthy error, and the run rejects with it; or the next
    call resolves with a truthy value other than [b], which the run returns
    (so with [b = true] it never returns a boolean); or the next call
    settles with a falsy value other than [b] or a falsy error, and the run
    returns [undefined]. The primitive is left in the state after that last
    call. *)
Theorem retry_on_boolean_result {S} (b : bool) (fn : Async S JsValue)
    (settings : RequiredAttemptSettings) (fuel : nat) (w : World S)
    (r : Settled JsValue) (w' : World S) :
  retryFunctionUntil fuel (toRetryOnBoolean b fn) settings w = Some (r, w') ->
  exists n,
    resolvesSentinel b fn n (prim w)
    /\ match r with
       | Rejected e =>
           (e = budgetError (reqRetryCount settings)
            /\ Z.of_nat n = Z.max 0 (reqRetryCount settings + 1)
            /\ prim w' = primAfter fn n (prim w))
           \/ (truthy e = true
               /\ withinBudget (reqRetryCount settings) (Datatypes.S n)
               /\ fn (primAfter fn n (prim w)) = (Rejected e, prim w'))
       | Resolved v =>
           (v = JUndefined
            /\ withinBudget (reqRetryCount settings) (Datatypes.S n)
            /\ exists x,
                 fn (primAfter fn n (prim w)) = (x, prim w')
                 /\ match x with
                    | Resolved v0 => truthy v0 = false /\ v0 <> JBool b
                    | Rejected e0 => truthy e0 = false
                    end)
           \/ (truthy v = true /\ v <> JBool b /\ (b = true -> forall c, v <> JBool c)
               /\ withinBudget (reqRetryCount settings) (Datatypes.S n)
               /\ fn (primAfter fn n (prim w)) = (Resolved v, prim w'))
       end.
Proof.
  intros E. apply retryFunctionUntil_run in E.
  destruct E as (n & Hall & Hcase). exists n.
  split; [apply allRetryable_resolvesSentinel, Hall |].
  rewrite stateAfter_toRetryOnBoolean in Hcase.
  destruct Hcase as [(-> & Hn & Hp) | (Hb & x & F & Hx)].
  - left. split; [reflexivity |]. split; [exact Hn | exact Hp].
  - unfold toRetryOnBoolean in F.
    destruct (fn (primAfter fn n (prim w))) as [[v0 | e0] s0] eqn:Fc;
      injection F as <- <-; destruct Hx as [Hr ->]; simpl in *.
    + assert (Hne : v0 <> JBool b).
      { intros ->. rewrite (proj2 (strictEqBool_true (JBool b) b) eq_refl) in Hr.
        discriminate Hr. }
      destruct (truthy v0) eqn:Tv.
      * right. split; [exact Tv |]. split; [exact Hne |].
        split; [| split; [exact Hb | reflexivity]].
        intros -> c ->. destruct c; [apply Hne; reflexivity | discriminate Tv].
      * left. split; [reflexivity |]. split; [exact Hb |].
        exists (Resolved v0). split; [reflexivity |]. split; [exact Tv | exact Hne].
    + destruct (truthy e0) eqn:Te.
      * right. split; [exact Te |]. split; [exact Hb | reflexivity].
      * left. split; [reflexivity |]. split; [exact Hb |].
        exists (Rejected e0). split; [reflexivity | exact Te].
Qed.

Lemma retry_on_boolean_result_witness :
  exists n,
    resolvesSentinel false Scenario.scripted n
      [Resolved (JBool false); Resolved (JBool true); Resolved JNull]
    /\ ((JBool true = JUndefined
         /\ withinBudget 2 (Datatypes.S n)
         /\ exists x,
              Scenario.scripted
                (primAfter Scenario.scripted n
                   [Resolved (JBool false); Resolved (JBool true); Resolved JNull])
              = (x, [Resolved JNull])
              /\ match x with
                 | Resolved v0 => truthy v0 = false /\ v0 <> JBool false
                 | Rejected e0 => truthy e0 = false
                 end)
        \/ (truthy (JBool true) = true /\ JBool true <> JBool false
            /\ (false = true -> forall c, JBool true <> JBool c)
            /\ withinBudget 2 (Datatypes.S n)
            /\ Scenario.scripted
                 (primAfter Scenario.scripted n
                    [Resolved (JBool false); Resolved (JBool true); Resolved JNull])
               = (Resolved (JBool true), [Resolved JNull]))).
Proof.
  exact (retry_on_boolean_result false Scenario.scripted Scenario.threeTries 2
           (Scenario.start [Resolved (JBool false); Resolved (JBool true); Resolved JNull])
           (Resolved (JBool true))
           (mkWorld [Resolved JNull] (fun _ => 0%Q) 1 [EvAttempt; EvTimeout 51; EvAttempt])
           eq_refl).
Defined.

(** * Further properties of the locker *)

Section AdapterRuns.
Context {S : Type}.
Variable p : JsValue -> bool.
Variable call : Async S JsValue.

Lemma rejectsUnmatched_allRetryable (n : nat) (s : S) :
  rejectsUnmatched p call n s -> allRetryable (toRetryOnError p call) n s.
Proof.
  revert s. induction n as [| n IH]; intros s H; simpl in *; [exact I |].
  unfold toRetryOnError at 1.
  destruct (call s) as [[v | e] s']; [contradiction |].
  destruct H as [Hp H]. split; [unfold isRetryable; simpl; rewrite Hp; reflexivity | apply IH, H].
Qed.

Lemma afterRetries_primAfter (d j : Z) (n : nat) (w : World S) :
  prim (afterRetries (toRetryOnError p call) d j n w) = primAfter call n (prim w).
Proof.
  revert w. induction n as [| n IH]; intros w; simpl; [reflexivity |].
  rewrite IH, setJitterTimeout_prim, invoke_prim, toRetryOnError_state. reflexivity.
Qed.

(** The raw call is rejected [n] times with errors that [p] does not match
    and then resolves: the run ends right after, with [n + 1] invocations
    and [n] timers, and its result is the value when truthy, [undefined]
    otherwise. *)
Lemma retry_on_error_resolves (settings : RequiredAttemptSettings) (n fuel : nat)
    (w : World S) (v : JsValue) (s' : S) :
  withinBudget (reqRetryCount settings) (Datatypes.S n) ->
  rejectsUnmatched p call n (prim w) ->
  call (primAfter call n (prim w)) = (Resolved v, s') ->
  (n < fuel)%nat ->
  exists w',
    retryFunctionUntil fuel (toRetryOnError p call) settings w =
      Some (Resolved (if truthy v then v else JUndefined), w')
    /\ prim w' = s'
    /\ attemptCount (trace w') = (attemptCount (trace w) + n + 1)%nat
    /\ timeoutCount (trace w') = (timeoutCount (trace w) + n)%nat
    /\ (n = O -> trace w' = trace w ++ [EvAttempt] /\ drawn w' = drawn w).
Proof.
  intros Hb Hrej E Hfuel.
  eexists. split; [| split; [| split; [| split]]].
  - rewrite (retry_settles_at (toRetryOnError p call) settings n fuel w
               (mkState false v JUndefined) s' Hb).
    + simpl. destruct (truthy v); reflexivity.
    + apply rejectsUnmatched_allRetryable, Hrej.
    + unfold toRetryOnError at 1. rewrite afterRetries_primAfter, E. reflexivity.
    + reflexivity.
    + exact Hfuel.
  - reflexivity.
  - simpl. rewrite attemptCount_attempt, afterRetries_attempts. lia.
  - simpl. rewrite timeoutCount_attempt, afterRetries_timeouts. lia.
  - intros ->. split; reflexivity.
Qed.

End AdapterRuns.

Section LockerRuns.
Context {S : Type}.
Variable lock : string -> Options -> Async S JsValue.
Variable unlock : string -> Options -> Async S JsValue.
Variable md5hex : string -> string.
Variable joinFilePath : string -> string -> string.
Variable createErrorMessage : JsValue -> string.
Variable self : Locker.
Variable identifier : ResourceIdentifier.

Local Abbreviation lockCall :=
  (lock (path identifier) (generateOptions md5hex joinFilePath self identifier defaultLockOptions)).
Local Abbreviation unlockCall :=
  (unlock (path identifier) (generateOptions md5hex joinFilePath self identifier defaultUnlockOptions)).

(** X10: [acquire] resolves as soon as the lock primitive resolves, whatever
    value the primitive resolves with, after waiting out [n] rejections
    that do not carry ENOTACQUIRED (such as the busy signal): [n + 1]
    attempts and [n] timers; and so does [release] with the unlock
    primitive, which resolves with [undefined]. *)
Theorem lock_operations_wait_until_resolved (n fuel : nat) (w : World S)
    (v : JsValue) (s' : S) :
  withinBudget (reqRetryCount (attemptSettings self)) (Datatypes.S n) ->
  (n < fuel)%nat ->
  (rejectsUnmatched stopOnError lockCall n (prim w) ->
   lockCall (primAfter lockCall n (prim w)) = (Resolved v, s') ->
   exists w',
     acquire lock md5hex joinFilePath createErrorMessage fuel self identifier w =
       Some (Resolved JUndefined, w')
     /\ prim w' = s'
     /\ attemptCount (trace w') = (attemptCount (trace w) + n + 1)%nat
     /\ timeoutCount (trace w') = (timeoutCount (trace w) + n)%nat)
  /\
  (rejectsUnmatched stopOnError unlockCall n (prim w) ->
   unlockCall (primAfter unlockCall n (prim w)) = (Resolved v, s') ->
   exists w',
     release unlock md5hex joinFilePath createErrorMessage fuel self identifier w =
       Some (Resolved JUndefined, w')
     /\ prim w' = s'
     /\ attemptCount (trace w') = (attemptCount (trace w) + n + 1)%nat
     /\ timeoutCount (trace w') = (timeoutCount (trace w) + n)%nat).
Proof.
  intros Hb Hfuel. split; intros Hrej E.
  - destruct (retry_on_error_resolves stopOnError lockCall (attemptSettings self)
                n fuel w v s' Hb Hrej E Hfuel) as (w' & Erun & Hp & Ha & Ht & _).
    exists w'. split; [| repeat split; assumption].
    unfold acquire, retryUntilError. rewrite Erun. reflexivity.
  - destruct (retry_on_error_resolves stopOnError unlockCall (attemptSettings self)
                n fuel w v s' Hb Hrej E Hfuel) as (w' & Erun & Hp & Ha & Ht & _).
    exists w'. split; [| repeat split; assumption].
    unfold release, retryUntilError. rewrite Erun. reflexivity.
Qed.

(** X11: the happy path. When the lock primitive resolves at the first call
    and the unlock primitive resolves after it, [acquire] followed by
    [release] both resolve, with one attempt each, no timer and no random
    draw. *)
Theorem acquire_then_release_without_retry (fuel1 fuel2 : nat) (w : World S)
    (v1 v2 : JsValue) (s1 s2 : S) :
  -1 <= reqRetryCount (attemptSettings self) ->
  lockCall (prim w) = (Resolved v1, s1) ->
  unlockCall s1 = (Resolved v2, s2) ->
  exists w1 w2,
    acquire lock md5hex joinFilePath createErrorMessage (Datatypes.S fuel1) self identifier w =
      Some (Resolved JUndefined, w1)
    /\ release unlock md5hex joinFilePath createErrorMessage (Datatypes.S fuel2) self identifier w1 =
      Some (Resolved JUndefined, w2)
    /\ prim w2 = s2
    /\ trace w2 = trace w ++ [EvAttempt; EvAttempt]
    /\ drawn w2 = drawn w.
Proof.
  intros Hk E1 E2.
  assert (Hb : withinBudget (reqRetryCount (attemptSettings self)) 1)
    by (unfold withinBudget; simpl; lia).
  destruct (retry_on_error_resolves stopOnError lockCall (attemptSettings self)
              0 (Datatypes.S fuel1) w v1 s1 Hb I E1 ltac:(lia))
    as (w1 & Erun1 & Hp1 & _ & _ & Hshape1).
  destruct (Hshape1 eq_refl) as [Ht1 Hd1].
  destruct (retry_on_error_resolves stopOnError unlockCall (attemptSettings self)
              0 (Datatypes.S fuel2) w1 v2 s2 Hb I) as (w2 & Erun2 & Hp2 & _ & _ & Hshape2).
  { simpl. rewrite Hp1. exact E2. }
  { lia. }
  destruct (Hshape2 eq_refl) as [Ht2 Hd2].
  exists w1, w2. split; [| split; [| split; [| split]]].
  - unfold acquire, retryUntilError. rewrite Erun1. reflexivity.
  - unfold release, retryUntilError. rewrite Erun2. reflexivity.
  - exact Hp2.
  - rewrite Ht2, Ht1, <- app_assoc. reflexivity.
  - rewrite Hd2, Hd1. reflexivity.
Qed.

(** X12: whenever [acquire] or [release] rejects, the error is an
    [InternalServerError] whose message is the operation's prefix with the
    resource path, followed by the message of the cause. The primitive has
    then rejected [n] calls in a row, from the state the operation started
    in, with errors that do not carry ENOTACQUIRED, and the cause is either
    the budget-exhausted error, [n] being the budget, or the error carrying
    ENOTACQUIRED with which the primitive rejected the next call. No other
    error of the primitive surfaces. *)
Theorem lock_operations_reject_wrapped (fuel : nat) (w : World S)
    (err : JsValue) (w' : World S) :
  let k := reqRetryCount (attemptSettings self) in
  (acquire lock md5hex joinFilePath createErrorMessage fuel self identifier w =
     Some (Rejected err, w') ->
   exists cause n,
     err = InternalServerError
             ("Error trying to acquire lock for " +:+ path identifier +:+ ". " +:+
              createErrorMessage cause)
     /\ rejectsUnmatched stopOnError lockCall n (prim w)
     /\ ((cause = budgetError k /\ Z.of_nat n = Z.max 0 (k + 1)
          /\ prim w' = primAfter lockCall n (prim w))
         \/ (meansNotHeld cause = true /\ withinBudget k (Datatypes.S n)
             /\ lockCall (primAfter lockCall n (prim w)) = (Rejected cause, prim w'))))
  /\
  (release unlock md5hex joinFilePath createErrorMessage fuel self identifier w =
     Some (Rejected err, w') ->
   exists cause n,
     err = InternalServerError
             ("Error trying to release lock for " +:+ path identifier +:+ ".  " +:+
              createErrorMessage cause)
     /\ rejectsUnmatched stopOnError unlockCall n (prim w)
     /\ ((cause = budgetError k /\ Z.of_nat n = Z.max 0 (k + 1)
          /\ prim w' = primAfter unlockCall n (prim w))
         \/ (meansNotHeld cause = true /\ withinBudget k (Datatypes.S n)
             /\ unlockCall (primAfter unlockCall n (prim w)) = (Rejected cause, prim w')))).
Proof.
  intros k. split; intros E.
  - unfold acquire, retryUntilError in E.
    destruct (retryFunctionUntil fuel (toRetryOnError stopOnError lockCall)
                (attemptSettings self) w) as [[[v | cause] w0] |] eqn:Erun;
      [discriminate E | | discriminate E].
    injection E as <- <-.
    apply retry_on_error_run in Erun as (n & Hrej & Hcase).
    exists cause, n. split; [reflexivity |]. split; [exact Hrej |].
    destruct Hcase as [Hbudget | (Hp & _ & Hb & F)]; [left; exact Hbudget | right].
    rewrite stopOnError_meansNotHeld in Hp. split; [exact Hp |]. split; [exact Hb | exact F].
  - unfold release, retryUntilError in E.
    destruct (retryFunctionUntil fuel (toRetryOnError stopOnError unlockCall)
                (attemptSettings self) w) as [[[v | cause] w0] |] eqn:Erun;
      [discriminate E | | discriminate E].
    injection E as <- <-.
    apply retry_on_error_run in Erun as (n & Hrej & Hcase).
    exists cause, n. split; [reflexivity |]. split; [exact Hrej |].
    destruct Hcase as [Hbudget | (Hp & _ & Hb & F)]; [left; exact Hbudget | right].
    rewrite stopOnError_meansNotHeld in Hp. split; [exact Hp |]. split; [exact Hb | exact F].
Qed.

End LockerRuns.

(** X13: a locker constructed without a [retryCount] never gives up: against
    a lock primitive that rejects every call with an error other than
    ENOTACQUIRED, [acquire] does not settle however long it runs. *)
Theorem default_locker_never_gives_up {S} (lock : string -> Options -> Async S JsValue)
    (md5hex : string -> string) (joinFilePath : string -> string -> string)
    (createErrorMessage : JsValue -> string)
    (args : FileSystemResourceLockerArgs) (identifier : ResourceIdentifier)
    (fuel : nat) (w : World S) :
  (attemptSettingsArg args = None
   \/ exists a, attemptSettingsArg args = Some a /\ retryCount a = None) ->
  (forall opt s, exists e s',
     lock (path identifier) opt s = (Rejected e, s') /\ stopOnError e = false) ->
  acquire lock md5hex joinFilePath createErrorMessage fuel
    (newLocker joinFilePath args) identifier w = None.
Proof.
  intros Hargs Hbusy. unfold acquire, retryUntilError, retryFunctionUntil.
  assert (Hk : reqRetryCount (attemptSettings (newLocker joinFilePath args)) = -1).
  { unfold newLocker, spreadSettings. simpl.
    destruct Hargs as [-> | (a & -> & Ha)]; [reflexivity |]. simpl. rewrite Ha. reflexivity. }
  rewrite Hk. change (maxTriesOf (-1)) with Infinity.
  rewrite retryLoop_unbounded_none; [reflexivity | | reflexivity].
  intros s. destruct (Hbusy (generateOptions md5hex joinFilePath
                               (newLocker joinFilePath args) identifier defaultLockOptions) s)
    as (e & s' & E & Hp).
  eexists. exists s'. unfold toRetryOnError. rewrite E, Hp. split; reflexivity.
Qed.

Lemma lock_operations_wait_until_resolved_witness :
  exists w',
    acquire (fun _ _ => Scenario.scripted) Scenario.sameName Scenario.joinWithSlash
      Scenario.messageOf 2 (Scenario.locker 2) Scenario.alice
      (Scenario.start [Rejected Scenario.lockedError; Resolved JUndefined]) =
      Some (Resolved JUndefined, w')
    /\ prim w' = []
    /\ attemptCount (trace w') = 2%nat
    /\ timeoutCount (trace w') = 1%nat.
Proof.
  assert (Hb : withinBudget (reqRetryCount (attemptSettings (Scenario.locker 2))) 2)
    by (right; simpl; lia).
  apply (proj1 (lock_operations_wait_until_resolved
                  (fun _ _ => Scenario.scripted) (fun _ _ => Scenario.scripted)
                  Scenario.sameName Scenario.joinWithSlash Scenario.messageOf
                  (Scenario.locker 2) Scenario.alice 1 2
                  (Scenario.start [Rejected Scenario.lockedError; Resolved JUndefined])
                  JUndefined [] Hb (le_n 2))).
  - split; [reflexivity | exact I].
  - reflexivity.
Defined.

Lemma acquire_then_release_without_retry_witness :
  exists w1 w2,
    acquire (fun _ _ => Scenario.scripted) Scenario.sameName Scenario.joinWithSlash
      Scenario.messageOf 1 (Scenario.locker 0) Scenario.alice
      (Scenario.start [Resolved (JBool true); Resolved JUndefined]) =
      Some (Resolved JUndefined, w1)
    /\ release (fun _ _ => Scenario.scripted) Scenario.sameName Scenario.joinWithSlash
      Scenario.messageOf 1 (Scenario.locker 0) Scenario.alice w1 =
      Some (Resolved JUndefined, w2)
    /\ prim w2 = []
    /\ trace w2 = [EvAttempt; EvAttempt]
    /\ drawn w2 = 0%nat.
Proof.
  apply (acquire_then_release_without_retry
           (fun _ _ => Scenario.scripted) (fun _ _ => Scenario.scripted)
           Scenario.sameName Scenario.joinWithSlash Scenario.messageOf
           (Scenario.locker 0) Scenario.alice 0 0
           (Scenario.start [Resolved (JBool true); Resolved JUndefined])
           (JBool true) JUndefined [Resolved JUndefined] []).
  - simpl. lia.
  - reflexivity.
  - reflexivity.
Defined.

Lemma lock_operations_reject_wrapped_witness :
  exists cause n,
    InternalServerError
      "Error trying to release lock for /alice/foo.ttl.  Lock is not acquired/owned by you"
    = InternalServerError
        ("Error trying to release lock for " +:+ path Scenario.alice +:+ ".  " +:+
         Scenario.messageOf cause)
    /\ rejectsUnmatched stopOnError Scenario.scripted n
         [Rejected Scenario.ioError; Rejected Scenario.notAcquiredError]
    /\ ((cause = budgetError 2 /\ Z.of_nat n = Z.max 0 (2 + 1)
         /\ [] = primAfter Scenario.scripted n
                   [Rejected Scenario.ioError; Rejected Scenario.notAcquiredError])
        \/ (meansNotHeld cause = true /\ withinBudget 2 (Datatypes.S n)
            /\ Scenario.scripted
                 (primAfter Scenario.scripted n
                    [Rejected Scenario.ioError; Rejected Scenario.notAcquiredError])
               = (Rejected cause, []))).
Proof.
  exact (proj2 (lock_operations_reject_wrapped
                  (fun _ _ => Scenario.scripted) (fun _ _ => Scenario.scripted)
                  Scenario.sameName Scenario.joinWithSlash Scenario.messageOf
                  (Scenario.locker 2) Scenario.alice 2
                  (Scenario.start [Rejected Scenario.ioError; Rejected Scenario.notAcquiredError])
                  (InternalServerError
                     "Error trying to release lock for /alice/foo.ttl.  Lock is not acquired/owned by you")
                  (mkWorld [] (fun _ => 0%Q) 1 [EvAttempt; EvTimeout 51; EvAttempt]))
           eq_refl).
Defined.

Lemma default_locker_never_gives_up_witness :
  acquire (fun _ _ => Scenario.always (Rejected Scenario.lockedError))
    Scenario.sameName Scenario.joinWithSlash Scenario.messageOf 40
    (newLocker Scenario.joinWithSlash (mkArgs None None None)) Scenario.alice
    (Scenario.start tt) = None.
Proof.
  apply (default_locker_never_gives_up
           (fun _ _ => Scenario.always (Rejected Scenario.lockedError))
           Scenario.sameName Scenario.joinWithSlash Scenario.messageOf
           (mkArgs None None None) Scenario.alice 40 (Scenario.start tt)).
  - left. reflexivity.
  - intros opt s. exists Scenario.lockedError, s. split; reflexivity.
Defined.

(** * Further properties of [finalize] *)

Section FinalizeFrame.
Implicit Types (fs : gmap string Node) (d p q n : string).

(** What one [rmdir] does to the other paths. *)
Lemma rmdir_frame p fs (r : Settled unit) fs' :
  rmdir p fs = (r, fs') ->
  (forall q, fs !! q = Some NFile -> fs' !! q = Some NFile)
  /\ (forall q, q ≠ p -> (is_Some (fs' !! q) <-> is_Some (fs !! q)))
  /\ (forall q, is_Some (fs' !! q) -> is_Some (fs !! q))
  /\ match r with
     | Resolved _ => fs' !! p = None
     | Rejected _ => fs' = fs
     end.
Proof.
  unfold rmdir. intros E.
  destruct (fs !! p) as [[| [| x l]] |] eqn:Ep; injection E as <- <-;
    try (repeat split; (done || (intros; done))).
  split; [| split; [| split]].
  - intros q Hq. rewrite lookup_after_rmdir.
    destruct (decide (p = q)) as [-> | _]; [congruence |]. rewrite Hq. reflexivity.
  - intros q Hq. rewrite lookup_after_rmdir.
    destruct (decide (p = q)) as [-> | _]; [contradiction |]. apply fmap_is_Some.
  - intros q. rewrite lookup_after_rmdir.
    destruct (decide (p = q)) as [-> | _]; [intros [? H]; discriminate H |].
    apply fmap_is_Some.
  - rewrite lookup_after_rmdir. destruct (decide (p = p)); [reflexivity | contradiction].
Qed.

(** What the loop of [finalize] does to the other paths, however it ends. *)
Lemma rmdirEach_frame d (dirs : list string) :
  forall fs (r : Settled unit) fs',
  rmdirEach d dirs fs = (r, fs') ->
  (forall q, fs !! q = Some NFile -> fs' !! q = Some NFile)
  /\ (forall q, (forall n, n ∈ dirs -> q ≠ d +:+ "/" +:+ n) ->
        (is_Some (fs' !! q) <-> is_Some (fs !! q)))
  /\ (forall q, is_Some (fs' !! q) -> is_Some (fs !! q)).
Proof.
  induction dirs as [| x rest IH]; intros fs r fs' E; simpl in E.
  - injection E as <- <-. repeat split; auto.
  - destruct (rmdir (d +:+ "/" +:+ x) fs) as [[u | e] fs1] eqn:E1.
    + destruct (rmdir_frame _ _ _ _ E1) as (Hf1 & Hk1 & Hc1 & _).
      destruct (IH fs1 r fs' E) as (Hf & Hk & Hc).
      split; [| split].
      * intros q Hq. apply Hf, Hf1, Hq.
      * intros q Hq. rewrite Hk by (intros n Hn; apply Hq; right; exact Hn).
        apply Hk1. apply Hq. left.
      * intros q Hq. apply Hc1, Hc, Hq.
    + injection E as <- <-.
      destruct (rmdir_frame _ _ _ _ E1) as (Hf1 & Hk1 & Hc1 & Hsame).
      subst fs1. repeat split; auto.
Qed.

End FinalizeFrame.

(** X14: whenever [finalize] succeeds, no lock folder is left on disk, and
    calling [finalize] again succeeds and changes nothing. *)
Theorem finalize_success_leaves_no_folder (self : Locker) (fs fs' : gmap string Node) :
  finalize self fs = (Resolved tt, fs') ->
  pathExists (lockFolder self) fs' = false
  /\ finalize self fs' = (Resolved tt, fs').
Proof.
  intros E.
  assert (Hgone : pathExists (lockFolder self) fs' = false).
  { unfold finalize in E.
    destruct (pathExists (lockFolder self) fs) eqn:Hex.
    - destruct (readdir (lockFolder self) fs) as [dirs | e]; [| discriminate E].
      destruct (rmdirEach (lockFolder self) dirs fs) as [[u | e] fs1]; [| discriminate E].
      destruct (rmdir_frame _ _ _ _ E) as (_ & _ & _ & Hnone).
      unfold pathExists. rewrite Hnone. apply bool_decide_eq_false. intros [? H]. discriminate H.
    - injection E as <-. exact Hex. }
  split; [exact Hgone |]. unfold finalize. rewrite Hgone. reflexivity.
Qed.

Lemma finalize_success_leaves_no_folder_witness :
  pathExists (lockFolder (Scenario.locker 2)) (snd (finalize (Scenario.locker 2) Scenario.twoLocks))
    = false
  /\ finalize (Scenario.locker 2) (snd (finalize (Scenario.locker 2) Scenario.twoLocks))
     = (Resolved tt, snd (finalize (Scenario.locker 2) Scenario.twoLocks)).
Proof.
  apply (finalize_success_leaves_no_folder (Scenario.locker 2) Scenario.twoLocks).
  vm_compute. reflexivity.
Defined.

(** X15: whenever [finalize] fails, the lock folder is still on disk. *)
Theorem finalize_failure_keeps_folder (self : Locker) (fs fs' : gmap string Node)
    (e : JsValue) :
  finalize self fs = (Rejected e, fs') ->
  pathExists (lockFolder self) fs' = true.
Proof.
  unfold finalize. intros E.
  destruct (pathExists (lockFolder self) fs) eqn:Hex; [| discriminate E].
  destruct (readdir (lockFolder self) fs) as [dirs | e0]; [| injection E as <- <-; exact Hex].
  destruct (rmdirEach (lockFolder self) dirs fs) as [[u | e1] fs1] eqn:Eloop.
  - destruct (rmdirEach_frame _ _ _ _ _ Eloop) as (_ & Hk & _).
    destruct (rmdir_frame _ _ _ _ E) as (_ & _ & _ & Hsame). subst fs'.
    unfold pathExists in *. apply bool_decide_eq_true. apply bool_decide_eq_true in Hex.
    apply Hk; [| exact Hex]. intros n _ H. symmetry in H. exact (child_neq_parent _ _ H).
  - injection E as <- <-.
    destruct (rmdirEach_frame _ _ _ _ _ Eloop) as (_ & Hk & _).
    unfold pathExists in *. apply bool_decide_eq_true. apply bool_decide_eq_true in Hex.
    apply Hk; [| exact Hex]. intros n _ H. symmetry in H. exact (child_neq_parent _ _ H).
Qed.

Lemma finalize_failure_keeps_folder_witness :
  pathExists (lockFolder (Scenario.locker 2))
    (snd (finalize (Scenario.locker 2) Scenario.strayFile)) = true.
Proof.
  apply (finalize_failure_keeps_folder (Scenario.locker 2) Scenario.strayFile _
           (fsError "ENOTDIR")).
  vm_compute. reflexivity.
Defined.

(** X16: however [finalize] ends, it removes no regular file, it creates no
    path, and a path that is neither the lock folder nor one of the entries
    the folder lists is on disk afterwards exactly when it was before. *)
Theorem finalize_touches_only_lock_entries (self : Locker) (fs : gmap string Node) :
  let fs' := snd (finalize self fs) in
  (forall q, fs !! q = Some NFile -> fs' !! q = Some NFile)
  /\ (forall q, pathExists q fs' = true -> pathExists q fs = true)
  /\ (forall q dirs,
        fs !! lockFolder self = Some (NDir dirs) ->
        q ≠ lockFolder self ->
        (forall n, n ∈ dirs -> q ≠ lockFolder self +:+ "/" +:+ n) ->
        pathExists q fs' = pathExists q fs).
Proof.
  unfold finalize.
  destruct (pathExists (lockFolder self) fs) eqn:Hex; simpl.
  2: { repeat split; auto. }
  unfold readdir.
  destruct (fs !! lockFolder self) as [[| listed] |] eqn:Hd; simpl.
  1, 3: repeat split; auto.
  destruct (rmdirEach (lockFolder self) listed fs) as [[u | e1] fs1] eqn:Eloop.
  - destruct (rmdirEach_frame _ _ _ _ _ Eloop) as (Hf & Hk & Hc).
    destruct (rmdir (lockFolder self) fs1) as [r fs2] eqn:Elast.
    destruct (rmdir_frame _ _ _ _ Elast) as (Hf2 & Hk2 & Hc2 & _). simpl.
    split; [| split].
    + intros q Hq. apply Hf2, Hf, Hq.
    + intros q Hq. unfold pathExists in *. apply bool_decide_eq_true.
      apply bool_decide_eq_true in Hq. apply Hc, Hc2, Hq.
    + intros q dirs Hdirs Hq Hnot. injection Hdirs as <-.
      apply pathExists_iff. rewrite Hk2 by exact Hq. apply Hk, Hnot.
  - simpl. destruct (rmdirEach_frame _ _ _ _ _ Eloop) as (Hf & Hk & Hc).
    split; [exact Hf | split].
    + intros q Hq. unfold pathExists in *. apply bool_decide_eq_true.
      apply bool_decide_eq_true in Hq. apply Hc, Hq.
    + intros q dirs Hdirs Hq Hnot. injection Hdirs as <-.
      apply pathExists_iff. apply Hk, Hnot.
Qed.

Lemma finalize_touches_only_lock_entries_witness :
  snd (finalize (Scenario.locker 2) Scenario.strayFile) !! "/data/.internal/locks/notes.txt"
    = Some NFile
  /\ pathExists "/data/alice.ttl" (snd (finalize (Scenario.locker 2) Scenario.twoLocks))
     = pathExists "/data/alice.ttl" Scenario.twoLocks.
Proof.
  split.
  - apply (proj1 (finalize_touches_only_lock_entries (Scenario.locker 2) Scenario.strayFile)).
    reflexivity.
  - apply (proj2 (proj2 (finalize_touches_only_lock_entries (Scenario.locker 2)
                           Scenario.twoLocks)) "/data/alice.ttl" ["0a1b"; "2c3d"]).
    + reflexivity.
    + discriminate.
    + intros n Hn.
      apply elem_of_cons in Hn as [-> | Hn]; [discriminate |].
      apply elem_of_cons in Hn as [-> | Hn]; [discriminate |].
      apply elem_of_nil in Hn. contradiction.
Defined.

(** * Properties of the setup handler *)

Section ObjectAssign.
Import SetupHandler.

Lemma assoc_setProp_eq (k : string) (v : JsValue) (t : list (string * JsValue)) :
  assoc k (setProp k v t) = Some v.
Proof.
  induction t as [| [k' x] t IH]; simpl.
  - rewrite String.eqb_refl. reflexivity.
  - destruct (String.eqb_spec k' k) as [-> | Hne]; simpl.
    + rewrite String.eqb_refl. reflexivity.
    + destruct (String.eqb_spec k' k); [contradiction | exact IH].
Qed.

Lemma assoc_setProp_ne (k k' : string) (v : JsValue) (t : list (string * JsValue)) :
  k <> k' -> assoc k (setProp k' v t) = assoc k t.
Proof.
  intros Hne. induction t as [| [k0 x] t IH]; simpl.
  - destruct (String.eqb_spec k' k); [congruence | reflexivity].
  - destruct (String.eqb_spec k0 k') as [-> | H0]; simpl.
    + destruct (String.eqb_spec k' k); [congruence | reflexivity].
    + destruct (String.eqb_spec k0 k); [reflexivity | exact IH].
Qed.

Lemma assoc_absent (k : string) (props : list (string * JsValue)) :
  k ∉ map fst props -> assoc k props = None.
Proof.
  induction props as [| [k' x] props IH]; simpl; intros H; [reflexivity |].
  destruct (String.eqb_spec k' k) as [-> | Hne].
  - destruct H. left.
  - apply IH. intros Hin. apply H. right. exact Hin.
Qed.

(** After [Object.assign], a key reads what the source holds for it, and
    what the target held when the source does not have it. *)
Lemma assoc_assign (k : string) (props target : list (string * JsValue)) :
  NoDup (map fst props) ->
  assoc k (fold_left (fun t kv => setProp (fst kv) (snd kv) t) props target) =
  match assoc k props with
  | Some v => Some v
  | None => assoc k target
  end.
Proof.
  revert target. induction props as [| [k' x] props IH]; intros target Hnd; simpl.
  - reflexivity.
  - apply NoDup_cons in Hnd as [Hnotin Hnd]. rewrite (IH _ Hnd).
    destruct (String.eqb_spec k' k) as [-> | Hne].
    + rewrite (assoc_absent k props Hnotin). apply assoc_setProp_eq.
    + destruct (assoc k props); [reflexivity |]. apply assoc_setProp_ne. congruence.
Qed.

End ObjectAssign.

Section HandlerProofs.
Import SetupHandler.
Context {S Data : Type}.
Variable readJsonStream : Data -> Async S JsValue.
Variable stringify : JsValue -> string.

Lemma truthy_member (key : string) (json : JsValue) :
  truthy (getProp key json) = true -> readMember key json = Resolved (getProp key json).
Proof. destruct json; simpl; try discriminate; reflexivity. Qed.

Lemma readMember_object (key : string) (json v : JsValue) :
  readMember key json = Resolved v -> v = getProp key json.
Proof. destruct json; simpl; intros H; try discriminate H; injection H as <-; reflexivity. Qed.

(** X17: a request for registration never reaches the storage or the
    initializer, also when it asks for initialization as well: the outcome
    of [handlePost] is the same whatever they are. *)
Theorem registration_bypasses_initializer (self self' : SetupHandlerArgs S)
    (body : Body Data) (s s1 : S) (json : JsValue) :
  isEmpty body = false ->
  readJsonStream (data body) s = (Resolved json, s1) ->
  truthy (getProp "registration" json) = true ->
  registrationManager self = registrationManager self' ->
  handlePost readJsonStream stringify self body s =
  handlePost readJsonStream stringify self' body s.
Proof.
  intros Hbody Hread Hreg Hsame. unfold handlePost.
  rewrite Hbody, Hread, (truthy_member _ _ Hreg), Hreg.
  unfold register. rewrite Hsame. reflexivity.
Qed.

(** X18: when the registration succeeds with the details [props],
    [handlePost] resolves with an output in which [registration] is [true]
    whatever the details say, every other key of the details holds the
    value of the details (also [initialize]), and [initialize] is [false]
    when the details do not have it. *)
Theorem registration_output (self : SetupHandlerArgs S) (body : Body Data) (s s1 s2 : S)
    (json : JsValue) (props : list (string * JsValue)) :
  isEmpty body = false ->
  readJsonStream (data body) s = (Resolved json, s1) ->
  truthy (getProp "registration" json) = true ->
  register self json s1 = (Resolved (JObj props), s2) ->
  NoDup (map fst props) ->
  exists output,
    handlePost readJsonStream stringify self body s = (Resolved (represent stringify output), s2)
    /\ assoc "registration" output = Some (JBool true)
    /\ (forall k v, k <> "registration" -> assoc k props = Some v -> assoc k output = Some v)
    /\ (assoc "initialize" props = None -> assoc "initialize" output = Some (JBool false)).
Proof.
  intros Hbody Hread Hreg Hdetails Hnd. eexists. split; [| split; [| split]].
  - unfold handlePost. rewrite Hbody, Hread, (truthy_member _ _ Hreg), Hreg, Hdetails.
    reflexivity.
  - apply assoc_setProp_eq.
  - intros k v Hk Hv. rewrite assoc_setProp_ne by exact Hk.
    unfold objectAssign. rewrite (assoc_assign _ _ _ Hnd), Hv. reflexivity.
  - intros Hnone. rewrite assoc_setProp_ne by discriminate.
    unfold objectAssign. rewrite (assoc_assign _ _ _ Hnd), Hnone. reflexivity.
Qed.

(** X19: a request for initialization alone first reads the storage. When
    the root pod is marked initialized it fails with a
    [BadRequestHttpError], with or without an initializer, which is not
    run; otherwise it fails with a [NotImplementedHttpError] when there is
    no initializer, and else runs the initializer once and answers
    [{initialize: true, registration: false}]. The registration manager is
    not used. *)
Theorem initialization_guards (self : SetupHandlerArgs S) (body : Body Data) (s s1 s2 : S)
    (json marked : JsValue) :
  isEmpty body = false ->
  readJsonStream (data body) s = (Resolved json, s1) ->
  truthy (getProp "registration" json) = false ->
  truthy (getProp "initialize" json) = true ->
  get (storage self) (rootPodInitializedStorageKey self) s1 = (Resolved marked, s2) ->
  (truthy marked = true ->
   handlePost readJsonStream stringify self body s =
     (Rejected (BadRequestHttpError
        "Invalid request to initialize: the public root Pod has already been initialized."),
      s2))
  /\ (truthy marked = false -> initializer self = None ->
      handlePost readJsonStream stringify self body s =
        (Rejected (NotImplementedHttpError
           "This server is not configured with a setup initializer."), s2))
  /\ (forall init v s3,
        truthy marked = false -> initializer self = Some init ->
        handleSafe init s2 = (Resolved v, s3) ->
        handlePost readJsonStream stringify self body s =
          (Resolved (represent stringify
             [("initialize", JBool true); ("registration", JBool false)]), s3))
  /\ (forall init e s3,
        truthy marked = false -> initializer self = Some init ->
        handleSafe init s2 = (Rejected e, s3) ->
        handlePost readJsonStream stringify self body s = (Rejected e, s3)).
Proof.
  intros Hbody Hread Hreg Hinit Hget.
  assert (Hmember : readMember "registration" json = Resolved (getProp "registration" json))
    by (destruct json; simpl in Hinit; try discriminate Hinit; reflexivity).
  assert (Hpost : handlePost readJsonStream stringify self body s =
                  match initialize self s1 with
                  | (Rejected e, s') => (Rejected e, s')
                  | (Resolved _, s') =>
                      (Resolved (represent stringify
                         (setProp "initialize" (JBool true)
                            [("initialize", JBool false); ("registration", JBool false)])), s')
                  end).
  { unfold handlePost. rewrite Hbody, Hread, Hmember, Hreg, (truthy_member _ _ Hinit), Hinit.
    reflexivity. }
  rewrite Hpost. unfold initialize. rewrite Hget.
  split; [| split; [| split]].
  - intros ->. reflexivity.
  - intros -> ->. reflexivity.
  - intros init v s3 -> -> ->. reflexivity.
  - intros init e s3 -> -> ->. reflexivity.
Qed.

(** X20: a request with an empty body, which is not read, and one whose
    JSON is an object or another value with neither a truthy [registration]
    nor a truthy [initialize], are answered
    [{initialize: false, registration: false}]; a body whose JSON is [null]
    is rejected with the [TypeError] of reading [registration] of [null].
    In all these cases the storage, the initializer and the registration
    manager are not used: the state is the one left by reading the body. *)
Theorem nothing_requested (self : SetupHandlerArgs S) (body : Body Data) (s : S) :
  (isEmpty body = true ->
   handlePost readJsonStream stringify self body s =
     (Resolved (represent stringify
        [("initialize", JBool false); ("registration", JBool false)]), s))
  /\ (forall json s1,
        isEmpty body = false ->
        readJsonStream (data body) s = (Resolved json, s1) ->
        truthy (getProp "registration" json) = false ->
        truthy (getProp "initialize" json) = false ->
        handlePost readJsonStream stringify self body s =
          match json with
          | JNull => (Rejected (typeErrorReading "null" "registration"), s1)
          | JUndefined => (Rejected (typeErrorReading "undefined" "registration"), s1)
          | _ =>
              (Resolved (represent stringify
                 [("initialize", JBool false); ("registration", JBool false)]), s1)
          end).
Proof.
  split.
  - intros Hbody. unfold handlePost. rewrite Hbody. reflexivity.
  - intros json s1 Hbody Hread Hreg Hinit. unfold handlePost.
    rewrite Hbody, Hread.
    destruct json; simpl in *; rewrite ?Hreg, ?Hinit; reflexivity.
Qed.

(** X21: a request for registration fails with a
    [NotImplementedHttpError] when there is no registration manager, and
    with the error of [validateInput] when the input is not valid; in both
    cases nothing is registered: the state is the one left by reading the
    body. *)
Theorem registration_guards (self : SetupHandlerArgs S) (body : Body Data) (s s1 : S)
    (json : JsValue) :
  isEmpty body = false ->
  readJsonStream (data body) s = (Resolved json, s1) ->
  truthy (getProp "registration" json) = true ->
  (registrationManager self = None ->
   handlePost readJsonStream stringify self body s =
     (Rejected (NotImplementedHttpError
        "This server is not configured to support registration during setup."), s1))
  /\ (forall manager e,
        registrationManager self = Some manager ->
        RegistrationManager.validateInput manager json true = Rejected e ->
        handlePost readJsonStream stringify self body s = (Rejected e, s1)).
Proof.
  intros Hbody Hread Hreg.
  assert (Hpost : handlePost readJsonStream stringify self body s =
                  match register self json s1 with
                  | (Rejected e, s') => (Rejected e, s')
                  | (Resolved details, s') =>
                      (Resolved (represent stringify
                         (setProp "registration" (JBool true)
                            (objectAssign
                               [("initialize", JBool false); ("registration", JBool false)]
                               details))), s')
                  end).
  { unfold handlePost. rewrite Hbody, Hread, (truthy_member _ _ Hreg), Hreg. reflexivity. }
  rewrite Hpost. unfold register. split.
  - intros ->. reflexivity.
  - intros manager e -> ->. reflexivity.
Qed.

End HandlerProofs.

Section HandlerWitnesses.
Import SetupHandler SetupScenario.

Lemma registration_bypasses_initializer_witness :
  handlePost parsed keysOf (handler (JBool false))
    (mkBody false (JObj [("registration", JBool true); ("initialize", JBool true)])) []
  = handlePost parsed keysOf
      (mkHandler (Some managerOk) None (storageSaying (JBool true)) "other")
      (mkBody false (JObj [("registration", JBool true); ("initialize", JBool true)])) [].
Proof.
  exact (registration_bypasses_initializer parsed keysOf (handler (JBool false))
           (mkHandler (Some managerOk) None (storageSaying (JBool true)) "other")
           (mkBody false (JObj [("registration", JBool true); ("initialize", JBool true)]))
           [] [] (JObj [("registration", JBool true); ("initialize", JBool true)])
           eq_refl eq_refl eq_refl eq_refl).
Defined.

Lemma registration_output_witness :
  exists output,
    handlePost parsed keysOf (handler (JBool false))
      (mkBody false (JObj [("registration", JBool true)])) []
      = (Resolved (represent keysOf output), ["registrationManager.register"])
    /\ assoc "registration" output = Some (JBool true)
    /\ assoc "email" output = Some (JStr "alice@test.email")
    /\ assoc "initialize" output = Some (JBool false).
Proof.
  destruct (registration_output parsed keysOf (handler (JBool false))
              (mkBody false (JObj [("registration", JBool true)])) [] []
              ["registrationManager.register"] (JObj [("registration", JBool true)])
              [("email", JStr "alice@test.email"); ("createWebId", JBool true);
               ("register", JBool true); ("createPod", JBool true)]
              eq_refl eq_refl eq_refl eq_refl)
    as (output & E & Hreg & Hkeys & Hinit).
  - repeat (apply NoDup_cons; split;
            [intros H; repeat (apply elem_of_cons in H as [H | H]; [discriminate H |]);
             apply elem_of_nil in H; exact H |]).
    constructor.
  - exists output. split; [exact E |]. split; [exact Hreg |].
    split; [apply Hkeys; [discriminate | reflexivity] | apply Hinit; reflexivity].
Defined.

Lemma initialization_guards_witness :
  handlePost parsed keysOf (bare (JBool true))
    (mkBody false (JObj [("initialize", JBool true)])) []
  = (Rejected (BadRequestHttpError
       "Invalid request to initialize: the public root Pod has already been initialized."),
     ["storage.get"])
  /\ handlePost parsed keysOf (handler JUndefined)
       (mkBody false (JObj [("initialize", JBool true)])) []
     = (Resolved (represent keysOf [("initialize", JBool true); ("registration", JBool false)]),
        ["storage.get"; "initializer.handleSafe"]).
Proof.
  split.
  - exact (proj1 (initialization_guards parsed keysOf (bare (JBool true))
                    (mkBody false (JObj [("initialize", JBool true)])) [] [] ["storage.get"]
                    (JObj [("initialize", JBool true)]) (JBool true)
                    eq_refl eq_refl eq_refl eq_refl eq_refl) eq_refl).
  - exact (proj1 (proj2 (proj2 (initialization_guards parsed keysOf (handler JUndefined)
                    (mkBody false (JObj [("initialize", JBool true)])) [] [] ["storage.get"]
                    (JObj [("initialize", JBool true)]) JUndefined
                    eq_refl eq_refl eq_refl eq_refl eq_refl)))
             initializerOk JUndefined ["storage.get"; "initializer.handleSafe"]
             eq_refl eq_refl eq_refl).
Defined.

Lemma nothing_requested_witness :
  handlePost parsed keysOf (handler (JBool false)) (mkBody true JNull) []
  = (Resolved (represent keysOf [("initialize", JBool false); ("registration", JBool false)]), [])
  /\ handlePost parsed keysOf (handler (JBool false))
       (mkBody false (JObj [("initialize", JBool false)])) []
     = (Resolved (represent keysOf [("initialize", JBool false); ("registration", JBool false)]),
        [])
  /\ handlePost parsed keysOf (handler (JBool false)) (mkBody false JNull) []
     = (Rejected (typeErrorReading "null" "registration"), []).
Proof.
  split; [| split].
  - exact (proj1 (nothing_requested parsed keysOf (handler (JBool false))
                    (mkBody true JNull) []) eq_refl).
  - exact (proj2 (nothing_requested parsed keysOf (handler (JBool false))
                    (mkBody false (JObj [("initialize", JBool false)])) [])
             (JObj [("initialize", JBool false)]) [] eq_refl eq_refl eq_refl eq_refl).
  - exact (proj2 (nothing_requested parsed keysOf (handler (JBool false))
                    (mkBody false JNull) [])
             JNull [] eq_refl eq_refl eq_refl eq_refl).
Defined.

Lemma registration_guards_witness :
  handlePost parsed keysOf (bare (JBool false))
    (mkBody false (JObj [("registration", JBool true)])) []
  = (Rejected (NotImplementedHttpError
       "This server is not configured to support registration during setup."), [])
  /\ handlePost parsed keysOf
       (mkHandler (Some (managerRejecting (BadRequestHttpError "Invalid email")))
          (Some initializerOk) (storageSaying JUndefined) "rootInitialized")
       (mkBody false (JObj [("registration", JBool true)])) []
     = (Rejected (BadRequestHttpError "Invalid email"), []).
Proof.
  split.
  - exact (proj1 (registration_guards parsed keysOf (bare (JBool false))
                    (mkBody false (JObj [("registration", JBool true)])) [] []
                    (JObj [("registration", JBool true)]) eq_refl eq_refl eq_refl) eq_refl).
  - exact (proj2 (registration_guards parsed keysOf
                    (mkHandler (Some (managerRejecting (BadRequestHttpError "Invalid email")))
                       (Some initializerOk) (storageSaying JUndefined) "rootInitialized")
                    (mkBody false (JObj [("registration", JBool true)])) [] []
                    (JObj [("registration", JBool true)]) eq_refl eq_refl eq_refl)
             (managerRejecting (BadRequestHttpError "Invalid email"))
             (BadRequestHttpError "Invalid email") eq_refl eq_refl).
Defined.

End HandlerWitnesses.

(** * Properties of the cluster manager *)

Section ClusterProofs.
Import ClusterManager.

(** The [for] loop never finds [workers[i]] undefined when it starts at an
    index within the array: it forks [n] workers, named in the order of the
    forks, and attaches the listeners to [workers[i]], ..,
    [workers[i + n - 1]] of the array it leaves. *)
Lemma forkLoop_spec (n : nat) :
  forall (i : nat) (c : Cluster),
  (i <= length (workers c))%nat ->
  exists c',
    forkLoop n i c = (Resolved tt, c')
    /\ workers c' = workers c ++ seq (forked c) n
    /\ forked c' = (forked c + n)%nat
    /\ messageListeners c' =
         messageListeners c ++ take n (drop i (workers c ++ seq (forked c) n))
    /\ onlineListeners c' = onlineListeners c
    /\ exitListeners c' = exitListeners c.
Proof.
  induction n as [| n IH]; intros i c Hi.
  - exists c. simpl. rewrite !app_nil_r. repeat split; lia.
  - simpl forkLoop. unfold listenAt.
    assert (Hx : exists x, workers (pushFork c) !! i = Some x).
    { apply lookup_lt_is_Some. simpl. rewrite length_app. simpl. lia. }
    destruct Hx as [x Hx]. rewrite Hx.
    set (c2 := mkCluster (workers (pushFork c)) (forked (pushFork c))
                 (messageListeners (pushFork c) ++ [x])
                 (onlineListeners (pushFork c)) (exitListeners (pushFork c))).
    destruct (IH (Datatypes.S i) c2) as (c' & E & Hw & Hf & Hm & Ho & He).
    { simpl. rewrite length_app. simpl. lia. }
    exists c'. split; [exact E |].
    simpl in Hw, Hf, Hm, Ho, He.
    assert (Hall : (workers c ++ [forked c]) ++ seq (Datatypes.S (forked c)) n
                   = workers c ++ seq (forked c) (Datatypes.S n))
      by (rewrite <- app_assoc; reflexivity).
    rewrite Hall in Hw, Hm.
    split; [exact Hw |]. split; [lia |]. split; [| split; assumption].
    rewrite Hm, <- app_assoc. f_equal.
    assert (Hx' : (workers c ++ seq (forked c) (Datatypes.S n)) !! i = Some x).
    { rewrite <- Hall. apply lookup_app_l_Some. exact Hx. }
    rewrite (drop_S _ _ _ Hx'). reflexivity.
Qed.

Lemma setupWorkers_spec (numCores : nat) (c : Cluster) :
  exists c',
    setupWorkers numCores c = (Resolved tt, c')
    /\ workers c' = workers c ++ seq (forked c) numCores
    /\ forked c' = (forked c + numCores)%nat
    /\ messageListeners c' = messageListeners c ++ take numCores (workers c')
    /\ onlineListeners c' = Datatypes.S (onlineListeners c)
    /\ exitListeners c' = Datatypes.S (exitListeners c).
Proof.
  destruct (forkLoop_spec numCores 0 c ltac:(lia)) as (c1 & E & Hw & Hf & Hm & Ho & He).
  eexists. unfold setupWorkers. rewrite E. split; [reflexivity |]. simpl.
  rewrite Hw, Hf, Hm, Ho, He. repeat split; reflexivity.
Qed.

(** X22: [setupWorkers] never throws. It forks [numCores] workers and adds
    one ['exit'] listener; the ['message'] listeners go to the first
    [numCores] entries of the [workers] array, so that the workers just
    forked get them exactly when the array was empty before. *)
Theorem setupWorkers_attaches_by_index (numCores : nat) (c : Cluster) :
  exists c',
    setupWorkers numCores c = (Resolved tt, c')
    /\ workers c' = workers c ++ seq (forked c) numCores
    /\ messageListeners c' = messageListeners c ++ take numCores (workers c')
    /\ exitListeners c' = Datatypes.S (exitListeners c)
    /\ (workers c = [] ->
        messageListeners c' = messageListeners c ++ seq (forked c) numCores)
    /\ (workers c <> [] -> (0 < numCores)%nat ->
        exists old, old ∈ workers c /\ messageListeners c' !! length (messageListeners c) = Some old).
Proof.
  destruct (setupWorkers_spec numCores c) as (c' & E & Hw & _ & Hm & _ & He).
  exists c'. split; [exact E |]. split; [exact Hw |]. split; [exact Hm |].
  split; [exact He |]. split.
  - intros Hempty. rewrite Hm, Hw, Hempty. simpl. f_equal.
    apply take_ge. rewrite length_seq. lia.
  - intros Hne Hpos. destruct (workers c) as [| old rest] eqn:Hwc; [contradiction |].
    exists old. split; [left |].
    rewrite Hm, Hw. destruct numCores; [lia |]. simpl.
    rewrite lookup_app_r by lia. rewrite Nat.sub_diag. reflexivity.
Qed.

Lemma listenersOf_app (worker : nat) (c : Cluster) (l1 l2 : list nat) :
  messageListeners c = l1 ++ l2 ->
  listenersOf worker c =
    (length (filter (fun w => w = worker) l1) + length (filter (fun w => w = worker) l2))%nat.
Proof. intros E. unfold listenersOf. rewrite E, filter_app, length_app. reflexivity. Qed.

Lemma count_in_seq (worker start len : nat) :
  length (filter (fun w => w = worker) (seq start len)) =
  if decide (start <= worker < start + len)%nat then 1%nat else 0%nat.
Proof.
  revert start. induction len as [| len IH]; intros start; simpl.
  - destruct (decide (start <= worker < start + 0)%nat); [lia | reflexivity].
  - rewrite filter_cons. destruct (decide (start = worker)) as [-> | Hne]; simpl.
    + rewrite IH.
      destruct (decide (Datatypes.S worker <= worker < Datatypes.S worker + len)%nat); [lia |].
      destruct (decide (worker <= worker < worker + Datatypes.S len)%nat); [reflexivity | lia].
    + rewrite IH.
      destruct (decide (Datatypes.S start <= worker < Datatypes.S start + len)%nat);
        destruct (decide (start <= worker < start + Datatypes.S len)%nat); (reflexivity || lia).
Qed.

(** X23: a second call of [setupWorkers] goes wrong silently: starting from
    the loaded module, after two calls with [n] cores the [2 n] workers
    exist, the workers of the first call carry two ['message'] listeners
    each and those of the second call none, and two ['exit'] listeners are
    registered. *)
Theorem setupWorkers_twice_misattaches (n : nat) :
  exists c1 c2,
    setupWorkers n loaded = (Resolved tt, c1)
    /\ setupWorkers n c1 = (Resolved tt, c2)
    /\ workers c2 = seq 0 (2 * n)
    /\ (forall worker, (worker < n)%nat -> listenersOf worker c2 = 2%nat)
    /\ (forall worker, (n <= worker)%nat -> listenersOf worker c2 = 0%nat)
    /\ exitListeners c2 = 2%nat.
Proof.
  destruct (setupWorkers_spec n loaded) as (c1 & E1 & Hw1 & Hf1 & Hm1 & _ & He1).
  destruct (setupWorkers_spec n c1) as (c2 & E2 & Hw2 & Hf2 & Hm2 & _ & He2).
  simpl in Hw1, Hf1, Hm1, He1.
  assert (Ht1 : take n (workers c1) = seq 0 n).
  { rewrite Hw1. apply take_ge. rewrite length_seq. lia. }
  rewrite Ht1 in Hm1.
  assert (Hw2' : workers c2 = seq 0 n ++ seq n n) by (rewrite Hw2, Hw1, Hf1; reflexivity).
  assert (Ht2 : take n (workers c2) = seq 0 n).
  { rewrite Hw2'. rewrite take_app_le by (rewrite length_seq; lia).
    apply take_ge. rewrite length_seq. lia. }
  rewrite Ht2, Hm1 in Hm2.
  exists c1, c2. split; [exact E1 |]. split; [exact E2 |].
  split; [| split; [| split]].
  - rewrite Hw2'. replace (2 * n)%nat with (n + n)%nat by lia. rewrite seq_app. reflexivity.
  - intros worker Hlt. rewrite (listenersOf_app worker c2 _ _ Hm2), !count_in_seq.
    destruct (decide (0 <= worker < 0 + n)%nat); [reflexivity | lia].
  - intros worker Hge. rewrite (listenersOf_app worker c2 _ _ Hm2), !count_in_seq.
    destruct (decide (0 <= worker < 0 + n)%nat); [lia | reflexivity].
  - rewrite He2, He1. reflexivity.
Qed.

(** After one [setupWorkers] on the loaded module, every worker in the
    array carries exactly one listener, and an exit keeps it so. *)
Lemma emitExit_single (c : Cluster) :
  exitListeners c = 1%nat ->
  workers c = seq 0 (forked c) ->
  messageListeners c = workers c ->
  exists c',
    emitExit c = (Resolved tt, c')
    /\ exitListeners c' = 1%nat
    /\ forked c' = Datatypes.S (forked c)
    /\ workers c' = seq 0 (forked c')
    /\ messageListeners c' = workers c'.
Proof.
  intros He Hw Hm. unfold emitExit. rewrite He. simpl. unfold onExit, listenAt.
  assert (Hlast : workers (pushFork c) !! (length (workers (pushFork c)) - 1)%nat
                  = Some (forked c)).
  { simpl. rewrite length_app. simpl.
    replace (length (workers c) + 1 - 1)%nat with (length (workers c) + 0)%nat by lia.
    rewrite lookup_app_r by lia.
    replace (length (workers c) + 0 - length (workers c))%nat with 0%nat by lia. reflexivity. }
  rewrite Hlast. eexists. split; [reflexivity |].
  unfold pushFork. cbn [workers forked messageListeners exitListeners onlineListeners].
  split; [exact He |]. split; [reflexivity |].
  rewrite Hm, seq_S, <- Hw. split; reflexivity.
Qed.

(** X24: after one [setupWorkers] on the loaded module, [k] exits of workers
    never throw and fork one worker each: the array holds all
    [numCores + k] workers ever forked (an exited worker is not taken
    out), each with exactly one ['message'] listener. *)
Theorem exits_refork_one_each (numCores k : nat) :
  exists c0 c,
    setupWorkers numCores loaded = (Resolved tt, c0)
    /\ afterExits k c0 = (Resolved tt, c)
    /\ workers c = seq 0 (numCores + k)
    /\ forked c = (numCores + k)%nat
    /\ (forall worker, (worker < numCores + k)%nat -> listenersOf worker c = 1%nat)
    /\ (forall worker, (numCores + k <= worker)%nat -> listenersOf worker c = 0%nat).
Proof.
  destruct (setupWorkers_spec numCores loaded)
    as (c0 & E0 & Hw0 & Hf0 & Hm0 & _ & He0).
  simpl in Hw0, Hf0, Hm0, He0.
  assert (Hm0' : messageListeners c0 = workers c0).
  { rewrite Hm0. apply take_ge. rewrite Hw0, length_seq. lia. }
  assert (Hw0' : workers c0 = seq 0 (forked c0)) by (rewrite Hf0; exact Hw0).
  assert (Hrun : forall k c1,
            exitListeners c1 = 1%nat -> workers c1 = seq 0 (forked c1) ->
            messageListeners c1 = workers c1 ->
            exists c, afterExits k c1 = (Resolved tt, c)
                      /\ forked c = (forked c1 + k)%nat
                      /\ workers c = seq 0 (forked c)
                      /\ messageListeners c = workers c).
  { clear. induction k as [| k IH]; intros c1 He Hw Hm.
    - exists c1. simpl. repeat split; (assumption || lia).
    - destruct (emitExit_single c1 He Hw Hm) as (c2 & E & He2 & Hf2 & Hw2 & Hm2).
      destruct (IH c2 He2 Hw2 Hm2) as (c & Erun & Hf & Hw' & Hm').
      exists c. simpl. rewrite E. split; [exact Erun |]. split; [lia | split; assumption]. }
  destruct (Hrun k c0 He0 Hw0' Hm0') as (c & Erun & Hf & Hw & Hm).
  rewrite Hf0 in Hf. simpl in Hf.
  exists c0, c. split; [exact E0 |]. split; [exact Erun |].
  rewrite Hf in Hw. split; [exact Hw |]. split; [exact Hf |].
  rewrite Hw in Hm. split.
  - intros worker Hlt. unfold listenersOf. rewrite Hm, count_in_seq.
    destruct (decide (0 <= worker < 0 + (numCores + k))%nat); [reflexivity | lia].
  - intros worker Hge. unfold listenersOf. rewrite Hm, count_in_seq.
    destruct (decide (0 <= worker < 0 + (numCores + k))%nat); [lia | reflexivity].
Qed.

(** X25: in cluster mode on the master, [setupApplication] resolves with
    nothing after [setupWorkers] and never starts the application; in any
    other case it forks nothing and settles as the application does. *)
Theorem setupApplication_dispatch {S T : Type} (numCores : nat) (isMaster isClusterMode : bool)
    (startApplicationFn : Async S T) (c : Cluster) (s : S) :
  (isClusterMode && isMaster = true ->
   exists c',
     setupApplication numCores isMaster startApplicationFn isClusterMode (c, s)
       = (Resolved None, (c', s))
     /\ setupWorkers numCores c = (Resolved tt, c')
     /\ length (workers c') = (length (workers c) + numCores)%nat)
  /\ (isClusterMode && isMaster = false ->
      snd (setupApplication numCores isMaster startApplicationFn isClusterMode (c, s))
        = (c, snd (startApplicationFn s))
      /\ match startApplicationFn s with
         | (Resolved t, _) =>
             fst (setupApplication numCores isMaster startApplicationFn isClusterMode (c, s))
               = Resolved (Some t)
         | (Rejected e, _) =>
             fst (setupApplication numCores isMaster startApplicationFn isClusterMode (c, s))
               = Rejected e
         end).
Proof.
  split; intros Hmode; unfold setupApplication; rewrite Hmode.
  - destruct (setupWorkers_spec numCores c) as (c' & E & Hw & _).
    exists c'. rewrite E. split; [reflexivity |]. split; [reflexivity |].
    rewrite Hw, length_app, length_seq. reflexivity.
  - destruct (startApplicationFn s) as [[t | e] s']; split; reflexivity.
Qed.

End ClusterProofs.

Section ClusterWitnesses.
Import ClusterManager.

Lemma setupWorkers_attaches_by_index_witness :
  exists c',
    setupWorkers 3 loaded = (Resolved tt, c')
    /\ workers c' = [0; 1; 2]%nat
    /\ messageListeners c' = [0; 1; 2]%nat
    /\ exitListeners c' = 1%nat.
Proof.
  destruct (setupWorkers_attaches_by_index 3 loaded) as (c' & E & Hw & _ & He & Hfresh & _).
  exists c'. split; [exact E |]. split; [exact Hw |].
  split; [exact (Hfresh eq_refl) | exact He].
Defined.

Lemma setupApplication_dispatch_witness :
  (exists c',
     setupApplication 2 true (fun s : nat => (Resolved s, Datatypes.S s)) true (loaded, 7%nat)
       = (Resolved None, (c', 7%nat))
     /\ setupWorkers 2 loaded = (Resolved tt, c')
     /\ length (workers c') = (length (workers loaded) + 2)%nat)
  /\ snd (setupApplication 2 false (fun s : nat => (Resolved s, Datatypes.S s)) true
            (loaded, 7%nat))
     = (loaded, 8%nat).
Proof.
  split.
  - exact (proj1 (setupApplication_dispatch 2 true true
                    (fun s : nat => (Resolved s, Datatypes.S s)) loaded 7%nat) eq_refl).
  - exact (proj1 (proj2 (setupApplication_dispatch 2 false true
                           (fun s : nat => (Resolved s, Datatypes.S s)) loaded 7%nat) eq_refl)).
Defined.

End ClusterWitnesses.

(** * How the locker calls the primitive *)

Section PrimitiveCalls.
Context {S : Type}.

Lemma retryLoop_ext (fn fn' : Async S LockRequestState) (d j : Z) (m : Tries) :
  (forall s, fn s = fn' s) ->
  forall fuel state tries (w : World S),
    retryLoop fuel fn d j m state tries w = retryLoop fuel fn' d j m state tries w.
Proof.
  intros Hext. induction fuel as [| fuel IH]; intros state tries w; simpl; [reflexivity |].
  destruct (shouldRetry state && triesLe tries m); [| reflexivity].
  unfold invoke. rewrite Hext. destruct (fn' (prim w)) as [[st | e] s']; [| reflexivity].
  destruct (shouldRetry st); [apply IH |].
  destruct (truthy (error st)); [reflexivity |].
  destruct (truthy (response st)); [reflexivity | apply IH].
Qed.

(** X26: [acquire] calls the lock primitive with the resource path and with
    the options [{realpath: false, retries: 0, lockfilePath}], where the
    lock file is the digest of the path inside the lock folder, and with
    nothing else: two primitives that behave alike on these arguments give
    the same [acquire]. The same holds of [release] with
    [{realpath: false, lockfilePath}]. *)
Theorem locker_calls_primitive_with_fixed_options
    (lock lock' unlock unlock' : string -> Options -> Async S JsValue)
    (md5hex : string -> string) (joinFilePath : string -> string -> string)
    (createErrorMessage : JsValue -> string) (self : Locker)
    (identifier : ResourceIdentifier) (fuel : nat) (w : World S) :
  let file := joinFilePath (lockFolder self) (md5hex (path identifier)) in
  ((forall s, lock (path identifier) (mkOptions false (Some 0) (Some file)) s
              = lock' (path identifier) (mkOptions false (Some 0) (Some file)) s) ->
   acquire lock md5hex joinFilePath createErrorMessage fuel self identifier w
   = acquire lock' md5hex joinFilePath createErrorMessage fuel self identifier w)
  /\
  ((forall s, unlock (path identifier) (mkOptions false None (Some file)) s
              = unlock' (path identifier) (mkOptions false None (Some file)) s) ->
   release unlock md5hex joinFilePath createErrorMessage fuel self identifier w
   = release unlock' md5hex joinFilePath createErrorMessage fuel self identifier w).
Proof.
  intros file. split; intros Hsame.
  - unfold acquire, retryUntilError, retryFunctionUntil.
    rewrite (retryLoop_ext
               (toRetryOnError stopOnError
                  (lock (path identifier)
                     (generateOptions md5hex joinFilePath self identifier defaultLockOptions)))
               (toRetryOnError stopOnError
                  (lock' (path identifier)
                     (generateOptions md5hex joinFilePath self identifier defaultLockOptions))));
      [reflexivity |].
    intros s. unfold toRetryOnError, generateOptions, toLockfilePath. simpl.
    fold file. rewrite Hsame. reflexivity.
  - unfold release, retryUntilError, retryFunctionUntil.
    rewrite (retryLoop_ext
               (toRetryOnError stopOnError
                  (unlock (path identifier)
                     (generateOptions md5hex joinFilePath self identifier defaultUnlockOptions)))
               (toRetryOnError stopOnError
                  (unlock' (path identifier)
                     (generateOptions md5hex joinFilePath self identifier defaultUnlockOptions))));
      [reflexivity |].
    intros s. unfold toRetryOnError, generateOptions, toLockfilePath. simpl.
    fold file. rewrite Hsame. reflexivity.
Qed.

End PrimitiveCalls.

Lemma locker_calls_primitive_with_fixed_options_witness :
  acquire (fun _ _ => Scenario.always (Resolved JUndefined))
    Scenario.sameName Scenario.joinWithSlash Scenario.messageOf 1
    (Scenario.locker 2) Scenario.alice (Scenario.start tt)
  = acquire
      (fun p opt =>
         if bool_decide (retries opt = Some 0)
         then Scenario.always (Resolved JUndefined)
         else Scenario.always (Rejected Scenario.ioError))
      Scenario.sameName Scenario.joinWithSlash Scenario.messageOf 1
      (Scenario.locker 2) Scenario.alice (Scenario.start tt).
Proof.
  apply (proj1 (locker_calls_primitive_with_fixed_options
                  (fun _ _ => Scenario.always (Resolved JUndefined))
                  (fun p opt =>
                     if bool_decide (retries opt = Some 0)
                     then Scenario.always (Resolved JUndefined)
                     else Scenario.always (Rejected Scenario.ioError))
                  (fun _ _ => Scenario.always (Resolved JUndefined))
                  (fun _ _ => Scenario.always (Resolved JUndefined))
                  Scenario.sameName Scenario.joinWithSlash Scenario.messageOf
                  (Scenario.locker 2) Scenario.alice 1 (Scenario.start tt))).
  intros s. reflexivity.
Defined.
